(** * Visual-Review-Extractor: the capture and reconciliation pipeline of
      [index.js], embedded and verified.

    The development follows the source file top-down:

    - [JSText]   : JavaScript strings as sequences of UTF-16 code units, with
                   the three text operations the source applies to the model
                   reply ([replace] with the fence pattern, [trim], [match]
                   with the brace pattern);
    - [JSON]     : the values [JSON.parse] yields and the parser itself;
    - [Runtime]  : the browser, the file system and the vision provider as an
                   explicit world, and a small state-and-exception monad;
    - [Pipeline] : [clearScreenshotsFolder], [analyzeScreenshots],
                   [extractReviews] and the [/api/reviews] handler;
    - the properties of the specification, one theorem each. *)

From Stdlib Require Import NArith List Ascii String Bool Lia.
From Stdlib Require Import DecimalString DecimalN.
From stdpp Require Import base option list gmap strings.
Import ListNotations.

Local Open Scope N_scope.

(* ===================================================================== *)
(** ** JavaScript text *)
(* ===================================================================== *)

Module JSText.

(** A JavaScript string is a sequence of 16-bit code units. *)
Definition text := list N.

Definition cu (a : ascii) : N := N_of_ascii a.

(** A literal of the source, as code units. *)
Definition js (s : string) : text := map cu (list_ascii_of_string s).

(** The same with every apostrophe read as a double quote, to write JSON
    texts in examples. *)
Definition jsq (s : string) : text :=
  map (fun c => if c =? 39 then 34 else c) (js s).

Definition backtick : N := 96.
Definition newline : N := 10.
Definition lbrace : N := 123.
Definition rbrace : N := 125.

Fixpoint starts_with (p s : text) : bool :=
  match p, s with
  | [], _ => true
  | _ :: _, [] => false
  | a :: p', b :: s' => (a =? b) && starts_with p' s'
  end.

(** [fence] is "```" and [fence_json] is "```json". *)
Definition fence : text := [backtick; backtick; backtick].
Definition fence_json : text := fence ++ js "json".

(** One attempt of the pattern [/```json\n?|\n?```/] at the head of [s]: the
    length of the match.  The first alternative is tried first, and each
    optional newline is greedy. *)
Definition fence_match (s : text) : option nat :=
  if starts_with fence_json s then
    Some (if starts_with (fence_json ++ [newline]) s then 8 else 7)%nat
  else if starts_with (newline :: fence) s then Some 4%nat
  else if starts_with fence s then Some 3%nat
  else None.

(** [content.replace(/```json\n?|\n?```/g, '')]: scan from the left; a match
    is dropped and the scan resumes after it.  [skip] counts the code units
    of the current match that are still to be dropped. *)
Fixpoint strip_from (skip : nat) (s : text) : text :=
  match s with
  | [] => []
  | c :: s' =>
      match skip with
      | S k => strip_from k s'
      | O =>
          match fence_match (c :: s') with
          | Some (S k) => strip_from k s'
          | _ => c :: strip_from 0 s'
          end
      end
  end.

Definition strip_fences (s : text) : text := strip_from 0 s.

(** The code units [String.prototype.trim] removes: WhiteSpace and
    LineTerminator of ECMA-262. *)
Definition is_js_space (c : N) : bool :=
  (c =? 9) || (c =? 10) || (c =? 11) || (c =? 12) || (c =? 13) || (c =? 32)
  || (c =? 160) || (c =? 5760) || ((8192 <=? c) && (c <=? 8202))
  || (c =? 8232) || (c =? 8233) || (c =? 8239) || (c =? 8287)
  || (c =? 12288) || (c =? 65279).

Fixpoint trimStart (s : text) : text :=
  match s with
  | [] => []
  | c :: s' => if is_js_space c then trimStart s' else s
  end.

Definition trimEnd (s : text) : text := rev (trimStart (rev s)).

Definition trim (s : text) : text := trimEnd (trimStart s).

(** [cleanedContent.match(/\{[\s\S]*\}/)]: leftmost opening brace, then as
    much as possible up to a closing brace. *)
Fixpoint from_first_open (s : text) : option text :=
  match s with
  | [] => None
  | c :: s' => if c =? lbrace then Some s' else from_first_open s'
  end.

(** The longest prefix of [s] that ends with a closing brace. *)
Fixpoint upto_last_close (s : text) : option text :=
  match s with
  | [] => None
  | c :: s' =>
      match upto_last_close s' with
      | Some r => Some (c :: r)
      | None => if c =? rbrace then Some [c] else None
      end
  end.

Definition match_braces (s : text) : option text :=
  match from_first_open s with
  | Some rest =>
      match upto_last_close rest with
      | Some r => Some (lbrace :: r)
      | None => None
      end
  | None => None
  end.

End JSText.

Import JSText.

(* ===================================================================== *)
(** ** JSON *)
(* ===================================================================== *)

Module JSON.

(** The values of the program.  [JSON.parse] yields every constructor but
    [VUndefined], which arises from reading a property that is absent.  A
    number is kept as the numeral it was written with (JavaScript converts it
    to the nearest double; equal numerals are equal numbers).  An object is
    kept as its members in source order; reading a property takes the last
    member of that name, as [JSON.parse] lets a later duplicate win. *)
#[local] Unset Elimination Schemes.
Inductive value :=
| VUndefined
| VNull
| VBool (b : bool)
| VNumber (numeral : text)
| VString (s : text)
| VArray (elements : list value)
| VObject (members : list (text * value)).
#[local] Set Elimination Schemes.

(** *** The parser: ECMA-404 read one code unit at a time

    The containers that are open around the current position. *)
Inductive frame :=
| FArray (done_rev : list value)
| FObject (done_rev : list (text * value)) (key : option text).

(** Where the automaton is inside a number:
    an optional minus; a zero, or a non-zero digit and more digits; an
    optional fraction (a dot and at least one digit); an optional exponent
    (e or E, an optional sign, at least one digit). *)
Inductive numstate :=
| NMinus | NZero | NInt | NDot | NFrac | NExp | NExpSign | NExpDigits.

Inductive mode :=
| MValue (may_close : bool)   (* a value; right after '[' also ']' *)
| MKey (may_close : bool)     (* a member name; right after '{' also '}' *)
| MColon                      (* the ':' after a member name *)
| MAfter                      (* ',' or the closing bracket of the container *)
| MDone (v : value)           (* the whole text was read *)
| MString (is_key : bool) (acc_rev : text)
| MEscape (is_key : bool) (acc_rev : text)
| MUnicode (is_key : bool) (acc_rev : text) (digits : list N)
| MNumber (st : numstate) (acc_rev : text)
| MLiteral (rest : text) (v : value).

Definition pstate : Type := mode * list frame.

Definition is_json_space (c : N) : bool :=
  (c =? 9) || (c =? 10) || (c =? 13) || (c =? 32).

Definition is_digit (c : N) : bool := (48 <=? c) && (c <=? 57).

Definition hex_value (c : N) : option N :=
  if (48 <=? c) && (c <=? 57) then Some (c - 48)
  else if (65 <=? c) && (c <=? 70) then Some (c - 55)
  else if (97 <=? c) && (c <=? 102) then Some (c - 87)
  else None.

(** A value has been read completely: hand it to the innermost open
    container, or finish. *)
Definition complete (v : value) (stack : list frame) : option pstate :=
  match stack with
  | [] => Some (MDone v, [])
  | FArray es :: st => Some (MAfter, FArray (v :: es) :: st)
  | FObject ms (Some k) :: st => Some (MAfter, FObject ((k, v) :: ms) None :: st)
  | FObject _ None :: _ => None
  end.

Definition close_array (stack : list frame) : option pstate :=
  match stack with
  | FArray es :: st => complete (VArray (rev es)) st
  | _ => None
  end.

Definition close_object (stack : list frame) : option pstate :=
  match stack with
  | FObject ms None :: st => complete (VObject (rev ms)) st
  | _ => None
  end.

(** The end of a string literal: a member name is stored in its object's
    frame, any other string is a value. *)
Definition end_string (is_key : bool) (s : text) (stack : list frame)
  : option pstate :=
  if is_key then
    match stack with
    | FObject ms None :: st => Some (MColon, FObject ms (Some s) :: st)
    | _ => None
    end
  else complete (VString s) stack.

Definition num_step (st : numstate) (c : N) : option numstate :=
  match st with
  | NMinus => if c =? 48 then Some NZero
              else if is_digit c then Some NInt else None
  | NZero => if c =? 46 then Some NDot
             else if (c =? 101) || (c =? 69) then Some NExp else None
  | NInt => if is_digit c then Some NInt
            else if c =? 46 then Some NDot
            else if (c =? 101) || (c =? 69) then Some NExp else None
  | NDot => if is_digit c then Some NFrac else None
  | NFrac => if is_digit c then Some NFrac
             else if (c =? 101) || (c =? 69) then Some NExp else None
  | NExp => if (c =? 43) || (c =? 45) then Some NExpSign
            else if is_digit c then Some NExpDigits else None
  | NExpSign => if is_digit c then Some NExpDigits else None
  | NExpDigits => if is_digit c then Some NExpDigits else None
  end.

Definition num_final (st : numstate) : bool :=
  match st with
  | NZero | NInt | NFrac | NExpDigits => true
  | _ => false
  end.

(** What may follow a complete value. *)
Definition step_after (m : mode) (stack : list frame) (c : N) : option pstate :=
  match m with
  | MAfter =>
      if is_json_space c then Some (MAfter, stack)
      else if c =? 44 then
        match stack with
        | FArray _ :: _ => Some (MValue false, stack)
        | FObject _ None :: _ => Some (MKey false, stack)
        | _ => None
        end
      else if c =? 93 then close_array stack
      else if c =? 125 then close_object stack
      else None
  | MDone v => if is_json_space c then Some (MDone v, stack) else None
  | _ => None
  end.

Definition step (ps : pstate) (c : N) : option pstate :=
  let '(m, stack) := ps in
  match m with
  | MValue may_close =>
      if is_json_space c then Some (m, stack)
      else if c =? 123 then Some (MKey true, FObject [] None :: stack)
      else if c =? 91 then Some (MValue true, FArray [] :: stack)
      else if c =? 93 then (if may_close then close_array stack else None)
      else if c =? 34 then Some (MString false [], stack)
      else if c =? 45 then Some (MNumber NMinus [c], stack)
      else if c =? 48 then Some (MNumber NZero [c], stack)
      else if is_digit c then Some (MNumber NInt [c], stack)
      else if c =? 116 then Some (MLiteral (js "rue") (VBool true), stack)
      else if c =? 102 then Some (MLiteral (js "alse") (VBool false), stack)
      else if c =? 110 then Some (MLiteral (js "ull") VNull, stack)
      else None
  | MKey may_close =>
      if is_json_space c then Some (m, stack)
      else if c =? 34 then Some (MString true [], stack)
      else if c =? 125 then (if may_close then close_object stack else None)
      else None
  | MColon =>
      if is_json_space c then Some (m, stack)
      else if c =? 58 then Some (MValue false, stack)
      else None
  | MAfter | MDone _ => step_after m stack c
  | MString k acc =>
      if c =? 34 then end_string k (rev acc) stack
      else if c =? 92 then Some (MEscape k acc, stack)
      else if c <? 32 then None
      else Some (MString k (c :: acc), stack)
  | MEscape k acc =>
      if c =? 34 then Some (MString k (34 :: acc), stack)
      else if c =? 92 then Some (MString k (92 :: acc), stack)
      else if c =? 47 then Some (MString k (47 :: acc), stack)
      else if c =? 98 then Some (MString k (8 :: acc), stack)
      else if c =? 102 then Some (MString k (12 :: acc), stack)
      else if c =? 110 then Some (MString k (10 :: acc), stack)
      else if c =? 114 then Some (MString k (13 :: acc), stack)
      else if c =? 116 then Some (MString k (9 :: acc), stack)
      else if c =? 117 then Some (MUnicode k acc [], stack)
      else None
  | MUnicode k acc ds =>
      match hex_value c with
      | Some d =>
          match ds with
          | [d1; d2; d3] =>
              Some (MString k (((d1 * 16 + d2) * 16 + d3) * 16 + d :: acc), stack)
          | _ => Some (MUnicode k acc (ds ++ [d]), stack)
          end
      | None => None
      end
  | MNumber st acc =>
      match num_step st c with
      | Some st' => Some (MNumber st' (c :: acc), stack)
      | None =>
          if num_final st then
            match complete (VNumber (rev acc)) stack with
            | Some (m', stack') => step_after m' stack' c
            | None => None
            end
          else None
      end
  | MLiteral rest v =>
      match rest with
      | [] => None
      | r :: rest' =>
          if c =? r then
            match rest' with
            | [] => complete v stack
            | _ => Some (MLiteral rest' v, stack)
            end
          else None
      end
  end.

Fixpoint run (ps : pstate) (s : text) : option pstate :=
  match s with
  | [] => Some ps
  | c :: s' =>
      match step ps c with
      | Some ps' => run ps' s'
      | None => None
      end
  end.

(** At the end of the text a value must be complete; a number at top level
    ends with the text. *)
Definition finish (ps : pstate) : option value :=
  match ps with
  | (MDone v, []) => Some v
  | (MNumber st acc, []) =>
      if num_final st then Some (VNumber (rev acc)) else None
  | _ => None
  end.

(** [JSON.parse(s)]: [None] stands for the [SyntaxError] it throws. *)
Definition parse (s : text) : option value :=
  match run (MValue false, []) s with
  | Some ps => finish ps
  | None => None
  end.

End JSON.

Import JSON.

(* ===================================================================== *)
(** ** The runtime: browser, provider, file system *)
(* ===================================================================== *)

Module Runtime.

Local Open Scope string_scope.

(** A thrown value.  [own_json] is the text [JSON.stringify(e, null, 2)]
    yields for it, which depends on the enumerable properties the thrower
    attached. *)
Record JSError := mkError {
  name : string;
  message : string;
  own_json : string;
}.

Definition Buffer := list Byte.byte.

(** [buffer.toString('base64')] (RFC 4648, with padding). *)
Definition base64_alphabet : string :=
  "ABCDEFGHIJKLMNOPQRSTUVWXYZabcdefghijklmnopqrstuvwxyz0123456789+/".

Definition base64_digit (n : N) : ascii :=
  match String.get (N.to_nat n) base64_alphabet with
  | Some a => a
  | None => "="%char
  end.

Fixpoint base64_of (b : list N) : string :=
  match b with
  | [] => ""
  | [x] =>
      String (base64_digit (x / 4))
        (String (base64_digit ((x mod 4) * 16)) "==")
  | [x; y] =>
      String (base64_digit (x / 4))
        (String (base64_digit ((x mod 4) * 16 + y / 16))
           (String (base64_digit ((y mod 16) * 4)) "="))
  | x :: y :: z :: rest =>
      String (base64_digit (x / 4))
        (String (base64_digit ((x mod 4) * 16 + y / 16))
           (String (base64_digit ((y mod 16) * 4 + z / 64))
              (String (base64_digit (z mod 64)) (base64_of rest))))
  end.

Definition toString_base64 (b : Buffer) : string :=
  base64_of (map Byte.to_N b).

(** What a file of the working directory holds. *)
Inductive FileData :=
| Binary (b : Buffer)
| Text (s : string).

(** The calls that leave the process and may reject: the browser and the
    vision provider.  Arguments are the ones the source passes. *)
Inductive Call :=
| chromium_launch
| browser_newPage
| page_goto (url : string) (timeout : N) (waitUntil : string)
| page_waitForSelector (selector state : string) (timeout : N)
| page_evaluate_hideWebdriver
| page_setViewportSize (width height : N)
| page_evaluate_scrollToBottom
| page_waitForTimeout (ms : N)
| page_evaluate_measure
| page_evaluate_scrollTo (y : N)
| page_screenshot (fullPage : bool)
| openai_create (model : string) (images : list string)
| browser_close.

Inductive Event :=
| Ext (c : Call)
| fs_readdir
| fs_unlink (file : string)
| fs_mkdir
| fs_writeFile (file : string) (data : FileData).

(** The six sizes the page reports. *)
Record DomHeights := {
  body_scrollHeight : N;
  documentElement_scrollHeight : N;
  body_offsetHeight : N;
  documentElement_offsetHeight : N;
  body_clientHeight : N;
  documentElement_clientHeight : N;
}.

(** Everything outside the process, as a function of the calls made so far:
    which call rejects and with what, the sizes of the page, the pixels of
    the viewport, and the [message.content] of each choice the provider
    answers with ([None] for a [null] content).  [unlink_fault] names the
    entries of the working directory that the operating system refuses to
    unlink, and the error it gives ([EPERM], [EACCES], [EBUSY], or [EISDIR]
    for an entry that is no plain file). *)
Record World := {
  fault : list Call -> Call -> option JSError;
  unlink_fault : string -> option JSError;
  dom : DomHeights;
  screenshot : list Call -> Buffer;
  completion : list string -> list (option text);
}.

(** The state one request can see and change: the [screenshots] directory
    ([None] while it does not exist) and the chronological log. *)
Record State := mkState {
  dir : option (gmap string FileData);
  log : list Event;
}.

Fixpoint calls_of (l : list Event) : list Call :=
  match l with
  | [] => []
  | Ext c :: l' => c :: calls_of l'
  | _ :: l' => calls_of l'
  end.

(** *** State and exceptions *)

Inductive outcome (A : Type) :=
| Return (a : A)
| Throw (e : JSError).
Arguments Return {A} a.
Arguments Throw {A} e.

Definition M (A : Type) : Type := State -> outcome A * State.

Definition ret {A} (a : A) : M A := fun s => (Return a, s).

Definition throw {A} (e : JSError) : M A := fun s => (Throw e, s).

Definition bind {A B} (c : M A) (k : A -> M B) : M B :=
  fun s =>
    match c s with
    | (Return a, s') => k a s'
    | (Throw e, s') => (Throw e, s')
    end.

(** [try { c } catch (e) { h e }] *)
Definition try_catch {A} (c : M A) (h : JSError -> M A) : M A :=
  fun s =>
    match c s with
    | (Return a, s') => (Return a, s')
    | (Throw e, s') => h e s'
    end.

(** [try { c } finally { f }]: [f] runs on both exits, and an exception of
    [f] replaces the outcome of [c]. *)
Definition try_finally {A} (c : M A) (f : M unit) : M A :=
  fun s =>
    let '(r, s') := c s in
    match f s' with
    | (Return _, s'') => (r, s'')
    | (Throw e, s'') => (Throw e, s'')
    end.

Declare Scope js_scope.
Delimit Scope js_scope with js.
Notation "x <- c ;; k" := (bind c (fun x => k))
  (at level 100, c at next level, right associativity) : js_scope.
Notation "c ;; k" := (bind c (fun _ => k))
  (at level 100, right associativity) : js_scope.
Local Open Scope js_scope.

Definition emit (e : Event) : M unit :=
  fun s => (Return tt, mkState (dir s) (log s ++ [e])).

(** An awaited call on the browser or the provider: logged, then resolved or
    rejected as the world decides. *)
Definition await (w : World) (c : Call) : M unit :=
  fun s =>
    let s' := mkState (dir s) (log s ++ [Ext c]) in
    match fault w (calls_of (log s)) c with
    | Some e => (Throw e, s')
    | None => (Return tt, s')
    end.

(** *** The file system, restricted to the working directory

    An entry of the directory is a name and the data a read would give.
    [readdir], [mkdir] and [writeFile] fail for the one reason visible here,
    a missing directory, and then as [fs] does, with [ENOENT].  [unlink]
    fails on a missing entry too, and on an entry that is there whenever
    the world says so; the entry then stays. *)

Definition ENOENT : JSError :=
  mkError "Error" "ENOENT: no such file or directory"
          "{ errno: -2, code: ENOENT }".

Definition readdir : M (list string) :=
  emit fs_readdir ;;
  fun s =>
    match dir s with
    | Some d => (Return (map_to_list d).*1, s)
    | None => (Throw ENOENT, s)
    end.

Definition unlink (w : World) (file : string) : M unit :=
  emit (fs_unlink file) ;;
  fun s =>
    match dir s with
    | Some d =>
        match d !! file with
        | Some _ =>
            match unlink_fault w file with
            | Some e => (Throw e, s)
            | None => (Return tt, mkState (Some (delete file d)) (log s))
            end
        | None => (Throw ENOENT, s)
        end
    | None => (Throw ENOENT, s)
    end.

(** [fs.mkdir(dir, { recursive: true })] *)
Definition mkdir_recursive : M unit :=
  emit fs_mkdir ;;
  fun s =>
    match dir s with
    | Some _ => (Return tt, s)
    | None => (Return tt, mkState (Some ∅) (log s))
    end.

Definition writeFile (file : string) (data : FileData) : M unit :=
  emit (fs_writeFile file data) ;;
  fun s =>
    match dir s with
    | Some d => (Return tt, mkState (Some (<[file := data]> d)) (log s))
    | None => (Throw ENOENT, s)
    end.

(** [Promise.all(files.map(f))]: every operation is started and runs to its
    end; the result is the first rejection, if any.  (After a rejection the
    caller goes on while the other operations finish; they are taken to have
    finished before the directory is next written to, which the run does no
    sooner than after a call on the provider or a wait of two seconds.) *)
Fixpoint promise_all (f : string -> M unit) (files : list string) : M unit :=
  match files with
  | [] => ret tt
  | x :: rest =>
      fun s =>
        match f x s with
        | (Return _, s') => promise_all f rest s'
        | (Throw e, s') => (Throw e, snd (promise_all f rest s'))
        end
  end.

End Runtime.

Import Runtime.

(* ===================================================================== *)
(** ** The pipeline of [index.js] *)
(* ===================================================================== *)

Module Pipeline.

Local Open Scope string_scope.
Local Open Scope N_scope.
Local Open Scope js_scope.

(** What the runtime throws on [JSON.parse] of a malformed text and on a
    property read of [null] or [undefined]; neither has enumerable
    properties. *)
Definition SyntaxError : JSError :=
  mkError "SyntaxError" "Unexpected token in JSON" "{}".

Definition TypeError (what : string) : JSError :=
  mkError "TypeError" ("Cannot read properties of " +:+ what) "{}".

Definition JSON_parse (s : text) : M value :=
  match parse s with
  | Some v => ret v
  | None => throw SyntaxError
  end.

(** [{ reviews: [] }] *)
Definition empty_reviews : value := VObject [(js "reviews", VArray [])].

(** [Math.max] of the six sizes (lines 159-166). *)
Definition Math_max (d : DomHeights) : N :=
  N.max (body_scrollHeight d)
    (N.max (documentElement_scrollHeight d)
       (N.max (body_offsetHeight d)
          (N.max (documentElement_offsetHeight d)
             (N.max (body_clientHeight d) (documentElement_clientHeight d))))).

(** [Math.ceil(a / b)] on the integers the page reports: the quotient, and
    one more when the division leaves a remainder. *)
Definition Math_ceil_div (a b : N) : N :=
  a / b + (if a mod b =? 0 then 0 else 1).

Definition viewportHeight : N := 1000.
Definition viewportWidth : N := 1920.

(** The decimal numeral of [i], as a template literal prints it. *)
Definition decimal (i : N) : string := NilEmpty.string_of_uint (N.to_uint i).

(** [`screenshot_${i}.png`] *)
Definition screenshot_file (i : N) : string :=
  "screenshot_" +:+ decimal i +:+ ".png".

Definition error_file : string := "openai_error_response.txt".

(** [o.reviews]: a [TypeError] on [null] and [undefined]; the own property of
    an object; [undefined] on arrays, strings, numbers and booleans, none of
    which has a property of that name. *)
Fixpoint last_member (key : text) (ms : list (text * value)) : option value :=
  match ms with
  | [] => None
  | (k, v) :: rest =>
      match last_member key rest with
      | Some v' => Some v'
      | None => if decide (k = key) then Some v else None
      end
  end.

Definition get_reviews (o : value) : M value :=
  match o with
  | VNull => throw (TypeError "null (reading 'reviews')")
  | VUndefined => throw (TypeError "undefined (reading 'reviews')")
  | VObject ms =>
      match last_member (js "reviews") ms with
      | Some v => ret v
      | None => ret VUndefined
      end
  | _ => ret VUndefined
  end.

(** [a.concat(x)]: the elements of an array are appended, anything else is
    appended as one element. *)
Definition concat (a : list value) (x : value) : list value :=
  match x with
  | VArray l => (a ++ l)%list
  | _ => (a ++ [x])%list
  end.

(** What [extractReviews] resolves to. *)
Record Result := {
  reviews : list value;
  errorDetails : option JSError;
}.

(** What the handler sends. *)
Inductive Body :=
| ReviewsBody (reviews_count : nat) (reviews : list value)
              (errorDetails : option JSError)
| ErrorBody (error : string) (details : option string).

Record Response := {
  status : N;
  json : Body;
}.

Section WithWorld.

Variable w : World.

(** Lines 35-43. *)
Definition clearScreenshotsFolder : M unit :=
  try_catch
    (files <- readdir ;;
     promise_all (unlink w) files)
    (fun err => ret tt).

(** Lines 104-125: the reply is cleaned, parsed, and on failure the brace
    match is parsed instead. *)
Definition reconcile (content : text) : M value :=
  let cleanedContent := trim (strip_fences content) in
  try_catch
    (parsedContent <- JSON_parse cleanedContent ;;
     ret parsedContent)
    (fun parseError =>
       match match_braces cleanedContent with
       | Some jsonMatch =>
           try_catch
             (extractedJson <- JSON_parse jsonMatch ;;
              ret extractedJson)
             (fun extractError => ret empty_reviews)
       | None => ret empty_reviews
       end).

(** [response.choices[0].message.content], up to the first method call on
    it: no first choice and a [null] content both throw a [TypeError]. *)
Definition first_content (choices : list (option text)) : M text :=
  match choices with
  | [] => throw (TypeError "undefined (reading 'message')")
  | None :: _ => throw (TypeError "null (reading 'replace')")
  | Some content :: _ => ret content
  end.

(** Lines 50-130.  The instruction text sent along with the images is fixed
    and is left out of the logged call. *)
Definition analyzeScreenshots (base64Images : list string) : M value :=
  let imageContent :=
    map (fun imageBase64 => "data:image/png;base64," +:+ imageBase64)
        base64Images in
  try_catch
    (await w (openai_create "gpt-4-vision-preview" imageContent) ;;
     content <- first_content (completion w imageContent) ;;
     reconcile content)
    (fun error => ret empty_reviews).

(** [page.screenshot({ fullPage })] *)
Definition page_screenshot_buffer (fullPage : bool) : M Buffer :=
  await w (page_screenshot fullPage) ;;
  fun s => (Return (screenshot w (calls_of (log s))), s).

(** Lines 158-167. *)
Definition measure : M N :=
  await w page_evaluate_measure ;;
  ret (Math_max (dom w)).

(** Lines 178-191: the loop [for (let i = 0; i < numScreenshots; i++)], with
    [remaining] the iterations still to run. *)
Fixpoint captureFrames (remaining : nat) (i : N) (screenshotsBase64 : list string)
  : M (list string) :=
  match remaining with
  | O => ret screenshotsBase64
  | S remaining' =>
      let yOffset := i * viewportHeight in
      await w (page_evaluate_scrollTo yOffset) ;;
      await w (page_waitForTimeout 2000) ;;
      screenshotBuffer <- page_screenshot_buffer false ;;
      let base64Image := toString_base64 screenshotBuffer in
      let screenshotsBase64 := (screenshotsBase64 ++ [base64Image])%list in
      writeFile (screenshot_file i) (Binary screenshotBuffer) ;;
      captureFrames remaining' (i + 1) screenshotsBase64
  end.

(** Lines 193-204. *)
Definition analyse (screenshotsBase64 : list string) : M Result :=
  let allReviews := [] in
  try_catch
    (reviews <- analyzeScreenshots screenshotsBase64 ;;
     found <- get_reviews reviews ;;
     ret {| reviews := concat allReviews found; errorDetails := None |})
    (fun analysisError =>
       writeFile error_file (Text (own_json analysisError)) ;;
       ret {| reviews := allReviews; errorDetails := Some analysisError |}).

(** Lines 141-204, the body of the outer [try]. *)
Definition extractReviews_body (url : string) : M Result :=
  await w (page_goto url 60000 "domcontentloaded") ;;
  await w (page_waitForSelector "body" "attached" 10000) ;;
  await w page_evaluate_hideWebdriver ;;
  await w (page_setViewportSize viewportWidth viewportHeight) ;;
  await w page_evaluate_scrollToBottom ;;
  await w (page_waitForTimeout 5000) ;;
  bodyHeight <- measure ;;
  let numScreenshots := Math_ceil_div bodyHeight viewportHeight in
  clearScreenshotsFolder ;;
  mkdir_recursive ;;
  screenshotsBase64 <- captureFrames (N.to_nat numScreenshots) 0 [] ;;
  analyse screenshotsBase64.

(** Lines 132-212. *)
Definition extractReviews (url : string) : M Result :=
  await w chromium_launch ;;
  await w browser_newPage ;;
  try_finally
    (try_catch (extractReviews_body url) (fun error => throw error))
    (await w browser_close).

(** Lines 214-241; [page] is [req.query.page], [None] when the parameter is
    missing.  A response without an explicit status is a 200.  An error
    object is truthy, so [result.errorDetails || null] is [errorDetails]. *)
Definition api_reviews (page : option string) : M Response :=
  match page with
  | None | Some "" =>
      ret {| status := 400;
             json := ErrorBody "Missing page URL parameter" None |}
  | Some page =>
      try_catch
        (result <- extractReviews page ;;
         ret {| status := 200;
                json := ReviewsBody (length (reviews result)) (reviews result)
                                    (errorDetails result) |})
        (fun error =>
           if String.eqb (name error) "TimeoutError" then
             ret {| status := 504;
                    json := ErrorBody "Request timed out. The page may be slow to load or blocking automated access." None |}
           else
             ret {| status := 500;
                    json := ErrorBody "Failed to extract reviews"
                                      (Some (message error)) |})
  end.

End WithWorld.

End Pipeline.

Import Pipeline.

(* ===================================================================== *)
(** ** The vocabulary of the properties *)
(* ===================================================================== *)

Local Open Scope string_scope.
Local Open Scope list_scope.
Local Open Scope N_scope.
Local Open Scope js_scope.

(** *** What the capture loop leaves behind *)

(** The log one frame leaves, and the log and the files a sequence of frames
    leaves, the first of them with index [i]. *)
Definition frame_events (i : N) (b : Buffer) : list Event :=
  [Ext (page_evaluate_scrollTo (i * viewportHeight));
   Ext (page_waitForTimeout 2000);
   Ext (page_screenshot false);
   fs_writeFile (screenshot_file i) (Binary b)].

Fixpoint frames_log (i : N) (bufs : list Buffer) : list Event :=
  match bufs with
  | [] => []
  | b :: rest => (frame_events i b ++ frames_log (i + 1) rest)%list
  end.

Fixpoint frames_files (i : N) (bufs : list Buffer) (d : gmap string FileData)
  : gmap string FileData :=
  match bufs with
  | [] => d
  | b :: rest => frames_files (i + 1) rest (<[screenshot_file i := Binary b]> d)
  end.

(** *** Worlds *)

(** The calls on the browser, as opposed to the one on the provider. *)
Definition on_browser (c : Call) : bool :=
  match c with
  | openai_create _ _ => false
  | _ => true
  end.

(** A world whose browser never rejects. *)
Definition browser_ok (w : World) : Prop :=
  forall h c, on_browser c = true -> fault w h c = None.

(** A world in which no call rejects, on the browser or on the provider. *)
Definition calm (w : World) : Prop := forall h c, fault w h c = None.

(** The buffers [page.screenshot] resolves to in [n] successive frames, the
    first of index [i], after the calls [h]: each is what the world shows
    once the three calls of its frame are made. *)
Fixpoint captured (w : World) (h : list Call) (i : N) (n : nat) : list Buffer :=
  match n with
  | O => []
  | S n' =>
      let h' := h ++ [page_evaluate_scrollTo (i * viewportHeight);
                      page_waitForTimeout 2000; page_screenshot false] in
      screenshot w h' :: captured w h' (i + 1) n'
  end.

(** *** The directory *)

Definition delete_all (files : list string) (d : gmap string FileData)
  : gmap string FileData :=
  fold_left (fun m k => delete k m) files d.

(** The entries of [d] that [unlink] is refused in [w]: what a clearing
    leaves behind. *)
Definition undeletable (w : World) (d : gmap string FileData)
  : gmap string FileData :=
  filter (fun entry => is_Some (unlink_fault w entry.1)) d.

(** The names [unlink] removes. *)
Definition deletable (w : World) (file : string) : bool :=
  match unlink_fault w file with
  | Some _ => false
  | None => true
  end.


(** *** The analysis step as functions *)

(** The value [reconcile] returns, as a function of the reply alone. *)
Definition reconciled (content : text) : value :=
  let cleanedContent := trim (strip_fences content) in
  match parse cleanedContent with
  | Some parsedContent => parsedContent
  | None =>
      match match_braces cleanedContent with
      | Some jsonMatch => default empty_reviews (parse jsonMatch)
      | None => empty_reviews
      end
  end.

Definition image_urls (base64Images : list string) : list string :=
  map (fun imageBase64 => "data:image/png;base64," +:+ imageBase64) base64Images.

Definition provider_call (base64Images : list string) : Call :=
  openai_create "gpt-4-vision-preview" (image_urls base64Images).

(** The value [analyzeScreenshots] returns after the calls [h]. *)
Definition analysed (w : World) (h : list Call) (base64Images : list string) : value :=
  match fault w h (provider_call base64Images) with
  | Some _ => empty_reviews
  | None =>
      match completion w (image_urls base64Images) with
      | Some content :: _ => reconciled content
      | _ => empty_reviews
      end
  end.

(** Reading [reviews] does not touch the state. *)
Definition reviews_of (v : value) : outcome value :=
  match v with
  | VNull => Throw (TypeError "null (reading 'reviews')")
  | VUndefined => Throw (TypeError "undefined (reading 'reviews')")
  | VObject ms => Return (default VUndefined (last_member (js "reviews") ms))
  | _ => Return VUndefined
  end.

(** An object whose [reviews] is an array. *)
Definition has_reviews_array (v : value) : bool :=
  match v with
  | VObject ms =>
      match last_member (js "reviews") ms with
      | Some (VArray _) => true
      | _ => false
      end
  | _ => false
  end.

(** The code units the fence pattern can match. *)
Definition in_fence (c : N) : bool :=
  (c =? backtick) || (c =? newline) || (c =? 106) || (c =? 115)
  || (c =? 111) || (c =? 110).

Definition not_brace (c : N) : bool :=
  negb (c =? lbrace) && negb (c =? rbrace).

(** The code units a JSON text can begin with: white space, an opening
    brace or bracket, a double quote, a minus, a digit, and the first letters
    of [true], [false] and [null]. *)
Definition can_start_json (c : N) : bool :=
  is_json_space c || (c =? 123) || (c =? 91) || (c =? 34) || (c =? 45)
  || is_digit c || (c =? 116) || (c =? 102) || (c =? 110).

(** *** The stages of a run *)

(** The calls that open and render the page (lines 134-167). *)
Definition render_calls (url : string) : list Call :=
  [page_goto url 60000 "domcontentloaded";
   page_waitForSelector "body" "attached" 10000;
   page_evaluate_hideWebdriver;
   page_setViewportSize viewportWidth viewportHeight;
   page_evaluate_scrollToBottom;
   page_waitForTimeout 5000;
   page_evaluate_measure].

Definition numScreenshots (w : World) : N :=
  Math_ceil_div (Math_max (dom w)) viewportHeight.

(** Lines 178-204: the capture loop and the analysis. *)
Definition capture_and_analyse (w : World) : M Result :=
  screenshotsBase64 <- captureFrames w (N.to_nat (numScreenshots w)) 0 [] ;;
  analyse w screenshotsBase64.

(** Calls awaited one after the other. *)
Fixpoint await_all (w : World) (cs : list Call) : M unit :=
  match cs with
  | [] => ret tt
  | c :: cs' => await w c ;; await_all w cs'
  end.


(** *** Kinds of events *)


Definition is_close (e : Event) : bool :=
  match e with
  | Ext browser_close => true
  | _ => false
  end.

(** The events of lines 175-176. *)
Definition is_clearing (e : Event) : bool :=
  match e with
  | fs_readdir | fs_unlink _ | fs_mkdir => true
  | _ => false
  end.

Definition is_newPage (c : Call) : bool :=
  match c with
  | browser_newPage => true
  | _ => false
  end.

(** [appends P c]: a run of [c] only extends the log, and with events that
    satisfy [P], on either exit. *)
Definition appends {A} (P : Event -> Prop) (c : M A) : Prop :=
  forall s, exists evs, log (snd (c s)) = (log s ++ evs)%list /\ Forall P evs.

(** *** Relations between states *)




(** *** Responses *)


Definition gateway_timeout : Response :=
  {| status := 504;
     json := ErrorBody "Request timed out. The page may be slow to load or blocking automated access." None |}.

Definition server_error (e : JSError) : Response :=
  {| status := 500;
     json := ErrorBody "Failed to extract reviews" (Some (message e)) |}.

Definition success (result : Result) : Response :=
  {| status := 200;
     json := ReviewsBody (length (reviews result)) (reviews result)
                         (errorDetails result) |}.

(** *** Sample worlds and inputs *)

Definition png : Buffer := [Byte.x89; Byte.x50; Byte.x4e; Byte.x47].

(** A page all of whose sizes are [h]. *)
Definition page_of_height (h : N) : DomHeights :=
  {| body_scrollHeight := h; documentElement_scrollHeight := h;
     body_offsetHeight := h; documentElement_offsetHeight := h;
     body_clientHeight := h; documentElement_clientHeight := h |}.

(** Nothing rejects, the page is [h] high, the provider answers [content]. *)
Definition replying (h : N) (content : text) : World :=
  {| fault := fun _ _ => None;
     unlink_fault := fun _ => None;
     dom := page_of_height h;
     screenshot := fun _ => png;
     completion := fun _ => [Some content] |}.

(** Nothing rejects, the page is [h] high, and the provider answers with one
    choice whose content is [null]. *)
Definition null_content (h : N) : World :=
  {| fault := fun _ _ => None;
     unlink_fault := fun _ => None;
     dom := page_of_height h;
     screenshot := fun _ => png;
     completion := fun _ => [None] |}.

Definition provider_timeout : JSError :=
  mkError "APIConnectionTimeoutError" "Request timed out." "{}".

(** The browser works, every call on the provider times out. *)
Definition provider_down (h : N) : World :=
  {| fault := fun _ c => if on_browser c then None else Some provider_timeout;
     unlink_fault := fun _ => None;
     dom := page_of_height h;
     screenshot := fun _ => png;
     completion := fun _ => [] |}.






Definition page_crashed : JSError :=
  mkError "Error" "browser.newPage: Target page, context or browser has been closed" "{}".

(** Everything works but the call [failing], which rejects with [e]. *)
Definition failing_at (failing : Call -> bool) (e : JSError) (h : N) : World :=
  {| fault := fun _ c => if failing c then Some e else None;
     unlink_fault := fun _ => None;
     dom := page_of_height h;
     screenshot := fun _ => png;
     completion := fun _ => [Some (jsq "{'reviews': []}")] |}.



Definition shop : string := "https://shop.example/item/42".

Definition fresh_start : State := mkState None [].

Definition great_review : text :=
  jsq "{'reviews':[{'title':'Great','body':'Works well','rating':5,'reviewer':'A'}]}".

(** A directory that still holds five frames and an error file of an earlier
    run, and a page 1800 high: afterwards it holds the two frames of this
    run and nothing else. *)
Definition stale_directory : gmap string FileData :=
  list_to_map
    [(screenshot_file 0, Binary []); (screenshot_file 1, Binary []);
     (screenshot_file 2, Binary []); (screenshot_file 3, Binary []);
     (screenshot_file 4, Binary []); (error_file, Text "{}")].

(** *** Kinds of code units *)

Definition not_backtick (c : N) : bool := negb (c =? backtick).

Definition not_lbrace (c : N) : bool := negb (c =? lbrace).

Definition not_rbrace (c : N) : bool := negb (c =? rbrace).

(** *** States of the parser *)

Definition is_defined (v : value) : bool :=
  match v with
  | VUndefined => false
  | _ => true
  end.

(** The value a state of the parser is about to return is not [undefined]. *)
Definition mode_defined (m : mode) : bool :=
  match m with
  | MDone v | MLiteral _ v => is_defined v
  | _ => true
  end.

Definition is_object (v : value) : bool :=
  match v with
  | VObject _ => true
  | _ => false
  end.

(** The outermost open container is an object, or the text was read and its
    value is an object. *)
Definition rooted_in_object (ps : pstate) : bool :=
  match last (snd ps) with
  | Some (FObject _ _) => true
  | Some (FArray _) => false
  | None => match fst ps with MDone v => is_object v | _ => false end
  end.

Definition rooted_stack (stack : list frame) : bool :=
  match last stack with
  | Some (FObject _ _) => true
  | _ => false
  end.

(** *** Shapes of runs *)

(** The three calls on the browser for frame [i], before its file is
    written. *)
Definition frame_calls (i : N) : list Event :=
  [Ext (page_evaluate_scrollTo (i * viewportHeight));
   Ext (page_waitForTimeout 2000);
   Ext (page_screenshot false)].

Definition is_provider_call (e : Event) : bool :=
  match e with
  | Ext (openai_create _ _) => true
  | _ => false
  end.

(** The calls that open the browser and the page (lines 134-135). *)
Definition opening_calls : list Call := [chromium_launch; browser_newPage].

(** The errors the world rejects the calls [cs] on the browser with, in
    order, when they are made one after the other after the calls [h].
    Calls on the provider are passed over. *)
Fixpoint browser_rejections (w : World) (h : list Call) (cs : list Call)
  : list JSError :=
  match cs with
  | [] => []
  | c :: cs' =>
      match (if on_browser c then fault w h c else None) with
      | Some e => e :: browser_rejections w (h ++ [c]) cs'
      | None => browser_rejections w (h ++ [c]) cs'
      end
  end.

(* ===================================================================== *)
(** ** Properties *)
(* ===================================================================== *)

(** *** The text operations and the parser on samples *)

Example parse_review :
  parse (jsq "{'reviews': [{'rating': 5, 'ok': true}, null]}")
  = Some (VObject [(js "reviews",
        VArray [VObject [(js "rating", VNumber (js "5")); (js "ok", VBool true)];
                VNull])]).
Proof. reflexivity. Qed.

Example parse_accepts :
  forallb (fun s => bool_decide (is_Some (parse (jsq s))))
    ["null"; " true "; "-0.5e+10"; "1E-5"; "[]"; "[ 1 , [2] ]"; "{}"; "{ }";
     "{'a':{'b':[{}, [], 'x']}}"; "'a\u00e9\n\/'"; "0"; "{'a':1,'a':2}"]
  = true.
Proof. vm_compute. reflexivity. Qed.

Example parse_rejects :
  forallb (fun s => bool_decide (parse (jsq s) = None))
    [""; " "; "nul"; "TRUE"; "01"; "-"; "1."; ".5"; "1e"; "+1"; "[1,]"; "[,1]";
     "[1 2]"; "{'a':1,}"; "{'a'}"; "{a:1}"; "'abc"; "'\x'"; "'\u12'";
     "[1]]"; "{'a':1}}"; "[1"; "true false"; "{'reviews': [{'title': 'Gre"]
  = true.
Proof. vm_compute. reflexivity. Qed.

(** A fenced block is unwrapped; when a line break stands before the
    opening fence, the second alternative of the pattern matches first and
    the word [json] stays. *)
Example strip_fences_samples :
  strip_fences (fence_json ++ [newline] ++ js "{}" ++ newline :: fence) = js "{}" /\
  strip_fences (js "Here:" ++ [newline] ++ fence_json ++ [newline] ++ js "{}"
                ++ newline :: fence)
  = js "Here:json" ++ [newline] ++ js "{}" /\
  trim (js "  {} " ++ [newline]) = js "{}" /\
  match_braces (js "so {a} and {b} it is") = Some (js "{a} and {b}") /\
  match_braces (js "} then {") = None.
Proof. repeat split; vm_compute; reflexivity. Qed.

Example toString_base64_samples :
  toString_base64 [Byte.x4d; Byte.x61; Byte.x6e] = "TWFu" /\
  toString_base64 [Byte.x4d; Byte.x61] = "TWE=" /\
  toString_base64 [Byte.x4d] = "TQ==" /\
  toString_base64 [] = "".
Proof. repeat split; vm_compute; reflexivity. Qed.

Example screenshot_file_samples :
  screenshot_file 0 = "screenshot_0.png" /\
  screenshot_file 12 = "screenshot_12.png".
Proof. split; vm_compute; reflexivity. Qed.

(** *** Height measurement and the number of frames *)

Lemma Math_max_ge (d : DomHeights) :
  Forall (fun h => h <= Math_max d)
    [body_scrollHeight d; documentElement_scrollHeight d;
     body_offsetHeight d; documentElement_offsetHeight d;
     body_clientHeight d; documentElement_clientHeight d].
Proof. unfold Math_max. repeat constructor; lia. Qed.

Lemma Math_max_attained (d : DomHeights) :
  In (Math_max d)
    [body_scrollHeight d; documentElement_scrollHeight d;
     body_offsetHeight d; documentElement_offsetHeight d;
     body_clientHeight d; documentElement_clientHeight d].
Proof.
  unfold Math_max. destruct d as [a b c e f g]; cbn [In body_scrollHeight
    documentElement_scrollHeight body_offsetHeight documentElement_offsetHeight
    body_clientHeight documentElement_clientHeight].
  lia.
Qed.

(** [Math_ceil_div] is the ceiling of the exact quotient: the least [n] with
    [a <= n * b]. *)
Lemma Math_ceil_div_spec (a b : N) :
  0 < b ->
  a <= Math_ceil_div a b * b /\
  (forall n, a <= n * b -> Math_ceil_div a b <= n).
Proof.
  intros Hb. unfold Math_ceil_div.
  pose proof (N.div_mod a b ltac:(lia)) as Hdm.
  pose proof (N.mod_lt a b ltac:(lia)) as Hlt.
  destruct (N.eqb_spec (a mod b) 0) as [Hz | Hnz]; split.
  - nia.
  - intros n Hn. nia.
  - nia.
  - intros n Hn.
    destruct (N.le_gt_cases (a / b + 1) n) as [? | Hgt]; [assumption |].
    exfalso. assert (Hn' : n <= a / b) by lia.
    apply (N.mul_le_mono_r _ _ b) in Hn'.
    set (q := a / b) in *. set (r := a mod b) in *.
    rewrite (N.mul_comm b q) in Hdm. lia.
Qed.

Lemma Math_ceil_div_zero (b : N) : 0 < b -> Math_ceil_div 0 b = 0.
Proof.
  intros Hb. unfold Math_ceil_div.
  rewrite N.Div0.div_0_l, N.Div0.mod_0_l. reflexivity.
Qed.

Lemma Math_ceil_div_one (a b : N) : 0 < a -> a <= b -> Math_ceil_div a b = 1.
Proof.
  intros Ha Hab.
  destruct (Math_ceil_div_spec a b ltac:(lia)) as [Hup Hleast].
  pose proof (Hleast 1 ltac:(lia)).
  destruct (N.eq_dec (Math_ceil_div a b) 0) as [E | E]; [rewrite E in Hup |]; lia.
Qed.

(** *** Reasoning about runs *)

Lemma calls_of_app (l l' : list Event) :
  calls_of (l ++ l') = (calls_of l ++ calls_of l')%list.
Proof.
  induction l as [| e l IH]; [reflexivity |].
  destruct e; simpl; rewrite ?IH; reflexivity.
Qed.

Lemma bind_run {A B} (c : M A) (k : A -> M B) (s : State) :
  bind c k s =
  match c s with
  | (Return a, s') => k a s'
  | (Throw e, s') => (Throw e, s')
  end.
Proof. reflexivity. Qed.

Lemma await_run (w : World) (c : Call) (s : State) :
  await w c s =
  (match fault w (calls_of (log s)) c with
   | Some e => Throw e
   | None => Return tt
   end, mkState (dir s) (log s ++ [Ext c])).
Proof. unfold await. destruct (fault w _ c); reflexivity. Qed.

Lemma await_then_ok {A} (w : World) (c : Call) (k : M A) (s : State) :
  fault w (calls_of (log s)) c = None ->
  (await w c ;; k) s = k (mkState (dir s) (log s ++ [Ext c])).
Proof. intros H. rewrite bind_run, await_run, H. reflexivity. Qed.

Lemma await_then_fault {A} (w : World) (c : Call) (k : M A) (s : State) e :
  fault w (calls_of (log s)) c = Some e ->
  (await w c ;; k) s = (Throw e, mkState (dir s) (log s ++ [Ext c])).
Proof. intros H. rewrite bind_run, await_run, H. reflexivity. Qed.

Lemma writeFile_run (file : string) (data : FileData) (s : State) :
  writeFile file data s =
  match dir s with
  | Some d => (Return tt, mkState (Some (<[file := data]> d))
                                  (log s ++ [fs_writeFile file data]))
  | None => (Throw ENOENT, mkState None (log s ++ [fs_writeFile file data]))
  end.
Proof. unfold writeFile, bind, emit. simpl. destruct (dir s); reflexivity. Qed.

Lemma captureFrames_step (w : World) (n : nat) (i : N) (acc : list string) (s : State) :
  captureFrames w (S n) i acc s =
  match fault w (calls_of (log s)) (page_evaluate_scrollTo (i * viewportHeight)) with
  | Some e => (Throw e, mkState (dir s) (log s ++ [Ext (page_evaluate_scrollTo (i * viewportHeight))]))
  | None =>
    let l1 := (log s ++ [Ext (page_evaluate_scrollTo (i * viewportHeight))])%list in
    match fault w (calls_of l1) (page_waitForTimeout 2000) with
    | Some e => (Throw e, mkState (dir s) (l1 ++ [Ext (page_waitForTimeout 2000)]))
    | None =>
      let l2 := (l1 ++ [Ext (page_waitForTimeout 2000)])%list in
      let l3 := (l2 ++ [Ext (page_screenshot false)])%list in
      match fault w (calls_of l2) (page_screenshot false) with
      | Some e => (Throw e, mkState (dir s) l3)
      | None =>
        let b := screenshot w (calls_of l3) in
        let l4 := (l3 ++ [fs_writeFile (screenshot_file i) (Binary b)])%list in
        match dir s with
        | Some d =>
            captureFrames w n (i + 1) (acc ++ [toString_base64 b])
              (mkState (Some (<[screenshot_file i := Binary b]> d)) l4)
        | None => (Throw ENOENT, mkState None l4)
        end
      end
    end
  end.
Proof.
  cbn [captureFrames].
  rewrite bind_run, await_run.
  destruct (fault w (calls_of (log s)) _) as [e |]; [reflexivity |].
  rewrite bind_run, await_run. cbn [log dir].
  destruct (fault w _ (page_waitForTimeout 2000)) as [e |]; [reflexivity |].
  rewrite bind_run. unfold page_screenshot_buffer at 1.
  rewrite bind_run, await_run. cbn [log dir].
  destruct (fault w _ (page_screenshot false)) as [e |]; [reflexivity |].
  cbn [log dir]. rewrite bind_run, writeFile_run. cbn [log dir].
  destruct (dir s); reflexivity.
Qed.

Lemma captured_length (w : World) (n : nat) :
  forall h i, length (captured w h i n) = n.
Proof. induction n as [| n IH]; intros h i; cbn; [| rewrite IH]; reflexivity. Qed.

Lemma calls_of_frame (l : list Event) (i : N) (tail : list Event) :
  calls_of tail = [] ->
  calls_of ((((l ++ [Ext (page_evaluate_scrollTo (i * viewportHeight))])
              ++ [Ext (page_waitForTimeout 2000)])
             ++ [Ext (page_screenshot false)]) ++ tail) =
  (calls_of l ++ [page_evaluate_scrollTo (i * viewportHeight);
                  page_waitForTimeout 2000; page_screenshot false])%list.
Proof.
  intros Htail. rewrite !calls_of_app, Htail, app_nil_r, <- !app_assoc.
  reflexivity.
Qed.

(** A loop that returns has run every iteration: it leaves the log and the
    files of [remaining] frames and returns their encodings in order; the
    buffers are the ones [page.screenshot] resolved to. *)
Lemma captureFrames_returns (w : World) (n : nat) :
  forall (i : N) (acc : list string) (s s' : State) (imgs : list string),
    captureFrames w n i acc s = (Return imgs, s') ->
    exists bufs : list Buffer,
      length bufs = n /\
      imgs = (acc ++ map toString_base64 bufs)%list /\
      log s' = (log s ++ frames_log i bufs)%list /\
      dir s' = frames_files i bufs <$> dir s /\
      (n <> 0%nat -> is_Some (dir s)) /\
      bufs = captured w (calls_of (log s)) i n.
Proof.
  induction n as [| n IH]; intros i acc s s' imgs Hrun.
  - cbn in Hrun. injection Hrun as <- <-. exists [].
    rewrite !app_nil_r. destruct s as [[d |] l]; cbn; repeat split; congruence.
  - rewrite captureFrames_step in Hrun. cbv zeta in Hrun.
    destruct (fault w _ (page_evaluate_scrollTo _)); [discriminate |].
    destruct (fault w _ (page_waitForTimeout _)); [discriminate |].
    destruct (fault w _ (page_screenshot _)); [discriminate |].
    destruct (dir s) as [d |] eqn:Hd; [| discriminate].
    apply IH in Hrun as (bufs & Hlen & Himgs & Hlog & Hdir & _ & Hbufs).
    cbn [log dir] in Hlog, Hdir, Hbufs.
    rewrite calls_of_frame in Hbufs by reflexivity.
    eexists (_ :: bufs). split; [simpl; rewrite Hlen; reflexivity |].
    split; [rewrite Himgs, <- app_assoc; reflexivity |].
    split; [| split; [exact Hdir | split; [eauto |]]].
    + rewrite Hlog. cbn [frames_log frame_events].
      rewrite <- !app_assoc. reflexivity.
    + cbn [captured]. rewrite <- Hbufs.
      rewrite <- (app_nil_r (_ ++ [Ext (page_screenshot false)])).
      rewrite calls_of_frame by reflexivity. reflexivity.
Qed.

Lemma calm_browser_ok (w : World) : calm w -> browser_ok w.
Proof. intros H h c _. apply H. Qed.

Lemma captureFrames_browser_ok (w : World) (n : nat) :
  browser_ok w ->
  forall (i : N) (acc : list string) (s : State),
    is_Some (dir s) ->
    exists imgs s', captureFrames w n i acc s = (Return imgs, s').
Proof.
  intros Hok. induction n as [| n IH]; intros i acc s [d Hd].
  - eexists _, _. reflexivity.
  - rewrite captureFrames_step. cbv zeta.
    rewrite !Hok, Hd by reflexivity. apply IH. cbn. eauto.
Qed.

(** *** Clearing the working directory *)

Lemma delete_all_lookup (files : list string) :
  forall (d : gmap string FileData) (k : string),
    delete_all files d !! k = if decide (k ∈ files) then None else d !! k.
Proof.
  induction files as [| x files IH]; intros d k.
  - cbn. destruct (decide (k ∈ [])) as [Hin |]; [| reflexivity].
    inversion Hin.
  - cbn. unfold delete_all in IH. rewrite IH.
    destruct (decide (k ∈ files)) as [Hin | Hnin].
    + rewrite decide_True by (right; exact Hin). reflexivity.
    + destruct (decide (k = x)) as [-> | Hne].
      * rewrite decide_True by left. apply lookup_delete_eq.
      * rewrite decide_False by (intros Hx; inversion Hx; subst; tauto).
        apply lookup_delete_ne. congruence.
Qed.

Lemma unlink_run (w : World) (file : string) (d : gmap string FileData)
  (l : list Event) :
  is_Some (d !! file) ->
  unlink w file (mkState (Some d) l) =
  (match unlink_fault w file with
   | Some e => Throw e
   | None => Return tt
   end,
   mkState (Some (if deletable w file then delete file d else d))
           (l ++ [fs_unlink file])).
Proof.
  intros [x Hx]. unfold unlink, deletable. rewrite bind_run. cbn. rewrite Hx.
  destruct (unlink_fault w file); reflexivity.
Qed.

(** Every listed entry gets its [unlink]; the ones the world lets go are
    removed, the others stay. *)
Lemma promise_all_unlink (w : World) (files : list string) :
  forall (d : gmap string FileData) (l : list Event),
    NoDup files ->
    Forall (fun k => is_Some (d !! k)) files ->
    snd (promise_all (unlink w) files (mkState (Some d) l)) =
    mkState (Some (delete_all (List.filter (deletable w) files) d))
            (l ++ map fs_unlink files).
Proof.
  induction files as [| x files IH]; intros d l Hnd Hall.
  - cbn. rewrite app_nil_r. reflexivity.
  - inversion Hnd as [| ? ? Hx Hnd']; subst.
    inversion Hall as [| ? ? Hsome Hall']; subst.
    cbn [promise_all]. rewrite unlink_run by exact Hsome.
    assert (Hrest : forall d', d' = (if deletable w x then delete x d else d) ->
              snd (promise_all (unlink w) files (mkState (Some d') (l ++ [fs_unlink x])))
              = mkState (Some (delete_all (List.filter (deletable w) (x :: files)) d))
                        (l ++ map fs_unlink (x :: files))).
    { intros d' ->. rewrite IH.
      - cbn [List.filter map]. rewrite <- app_assoc.
        destruct (deletable w x); reflexivity.
      - exact Hnd'.
      - rewrite Forall_forall in *. intros k Hk.
        destruct (deletable w x); [| apply Hall'; exact Hk].
        rewrite lookup_delete_ne; [apply Hall'; exact Hk |].
        intros ->. apply Hx, Hk. }
    destruct (unlink_fault w x); cbn [snd]; apply Hrest; reflexivity.
Qed.

Lemma undeletable_lookup (w : World) (d : gmap string FileData) (k : string) :
  undeletable w d !! k = if deletable w k then None else d !! k.
Proof.
  unfold undeletable, deletable. rewrite map_lookup_filter.
  destruct (d !! k) as [x |]; cbn; [| destruct (unlink_fault w k); reflexivity].
  destruct (unlink_fault w k) as [e |].
  - rewrite option_guard_True by eauto. reflexivity.
  - rewrite option_guard_False by (intros [? [=]]). reflexivity.
Qed.

Lemma undeletable_empty (w : World) : undeletable w ∅ = ∅.
Proof. apply map_filter_empty. Qed.


Lemma delete_all_deletable (w : World) (d : gmap string FileData) :
  delete_all (List.filter (deletable w) (map_to_list d).*1) d = undeletable w d.
Proof.
  apply map_eq. intros k. rewrite delete_all_lookup, undeletable_lookup.
  destruct (decide (k ∈ List.filter (deletable w) (map_to_list d).*1)) as [Hin | Hnin].
  - apply list_elem_of_In, List.filter_In in Hin as [_ ->]. reflexivity.
  - destruct (deletable w k) eqn:Hk; [| reflexivity].
    destruct (d !! k) as [x |] eqn:Hx; [| reflexivity].
    exfalso. apply Hnin. apply list_elem_of_In, List.filter_In.
    split; [| exact Hk]. apply list_elem_of_In, list_elem_of_fmap.
    exists (k, x). split; [reflexivity |]. apply elem_of_map_to_list, Hx.
Qed.

Lemma is_clearing_calls (evs : list Event) :
  forallb is_clearing evs = true -> calls_of evs = [].
Proof.
  induction evs as [| e evs IH]; [reflexivity |].
  destruct e; cbn; try discriminate; exact IH.
Qed.

Lemma map_to_list_keys (d : gmap string FileData) :
  NoDup (map_to_list d).*1 /\
  forall f, f ∈ (map_to_list d).*1 <-> is_Some (d !! f).
Proof.
  split; [apply NoDup_fst_map_to_list |].
  intros f. split.
  - intros Hf. apply list_elem_of_fmap in Hf as ([k' x] & -> & Hin).
    apply elem_of_map_to_list in Hin. cbn. eauto.
  - intros [x Hx]. apply list_elem_of_fmap. exists (f, x).
    split; [reflexivity |]. apply elem_of_map_to_list, Hx.
Qed.

(** Clearing never throws.  On an existing directory it lists the entries
    and unlinks each; what is left are the entries whose [unlink] was
    refused.  A missing directory stays missing. *)
Lemma clearScreenshotsFolder_run (w : World) (s : State) :
  clearScreenshotsFolder w s =
    (Return tt,
     mkState (undeletable w <$> dir s)
             (log s ++ fs_readdir ::
                match dir s with
                | Some d => map fs_unlink (map_to_list d).*1
                | None => []
                end)).
Proof.
  destruct s as [[d |] l]; unfold clearScreenshotsFolder, try_catch;
    [| reflexivity].
  rewrite bind_run. unfold readdir. rewrite bind_run. cbn [emit dir log].
  destruct (map_to_list_keys d) as [Hnd Hkeys].
  assert (Hall : Forall (fun k => is_Some (d !! k)) (map_to_list d).*1).
  { rewrite Forall_forall. intros k Hk. apply Hkeys, Hk. }
  pose proof (promise_all_unlink w _ d (l ++ [fs_readdir]) Hnd Hall) as Hsnd.
  rewrite delete_all_deletable, <- app_assoc in Hsnd.
  destruct (promise_all _ _ _) as [[[] | e] s'];
    cbn [snd] in Hsnd; rewrite Hsnd; reflexivity.
Qed.

Lemma clearing_events (d : option (gmap string FileData)) :
  forallb is_clearing
    (fs_readdir :: match d with
                   | Some d => map fs_unlink (map_to_list d).*1
                   | None => []
                   end) = true.
Proof.
  destruct d as [d |]; [| reflexivity].
  cbn. induction (map_to_list d).*1; [reflexivity | assumption].
Qed.

Lemma mkdir_recursive_run (s : State) :
  mkdir_recursive s =
  (Return tt, mkState (Some (default ∅ (dir s))) (log s ++ [fs_mkdir])).
Proof. destruct s as [[d |] l]; reflexivity. Qed.

(** Lines 175-176 together: every entry gets its [unlink]; afterwards the
    directory exists and holds what the clearing could not unlink. *)
Lemma clear_then_mkdir (w : World) {A} (k : M A) (s : State) :
  exists evs : list Event,
    (clearScreenshotsFolder w ;; mkdir_recursive ;; k) s =
      k (mkState (Some (undeletable w (default ∅ (dir s)))) (log s ++ evs)) /\
    forallb is_clearing evs = true /\ In fs_mkdir evs /\
    (forall f, is_Some (default ∅ (dir s) !! f) -> In (fs_unlink f) evs).
Proof.
  exists ((fs_readdir :: match dir s with
                         | Some d => map fs_unlink (map_to_list d).*1
                         | None => []
                         end) ++ [fs_mkdir])%list.
  rewrite bind_run, clearScreenshotsFolder_run, bind_run, mkdir_recursive_run.
  cbn [dir log].
  split; [| split; [| split]].
  - rewrite <- app_assoc.
    destruct (dir s); cbn [fmap option_fmap option_map default];
      rewrite ?undeletable_empty; reflexivity.
  - rewrite forallb_app, clearing_events. reflexivity.
  - apply in_or_app. right. left. reflexivity.
  - intros f Hf. apply in_or_app. left. right.
    destruct (dir s) as [d |]; cbn [default] in Hf.
    + apply in_map, list_elem_of_In, map_to_list_keys, Hf.
    + rewrite lookup_empty in Hf. destruct Hf as [? [=]].
Qed.

(** *** The analysis step *)

Lemma reconcile_run (content : text) (s : State) :
  reconcile content s = (Return (reconciled content), s).
Proof.
  unfold reconcile, reconciled, try_catch, JSON_parse. cbv zeta.
  rewrite bind_run.
  destruct (parse (trim (strip_fences content))) as [v |]; [reflexivity |].
  cbn. destruct (match_braces _) as [m |]; [| reflexivity].
  rewrite bind_run. destruct (parse m); reflexivity.
Qed.

(** [analyzeScreenshots] never throws: it makes the one call on the provider
    and returns a value, whatever the provider does. *)
Lemma analyzeScreenshots_run (w : World) (base64Images : list string) (s : State) :
  analyzeScreenshots w base64Images s =
  (Return (analysed w (calls_of (log s)) base64Images),
   mkState (dir s) (log s ++ [Ext (provider_call base64Images)])).
Proof.
  unfold analyzeScreenshots, analysed, try_catch. cbv zeta.
  fold (image_urls base64Images). fold (provider_call base64Images).
  rewrite bind_run, await_run.
  destruct (fault w _ _); [reflexivity |].
  rewrite bind_run.
  destruct (completion w _) as [| [content |] rest]; try reflexivity.
  cbn. rewrite reconcile_run. reflexivity.
Qed.

Lemma get_reviews_run (v : value) (s : State) :
  get_reviews v s = (reviews_of v, s).
Proof.
  destruct v; try reflexivity.
  cbn. destruct (last_member _ _); reflexivity.
Qed.

Lemma analyse_run (w : World) (base64Images : list string) (s : State) :
  analyse w base64Images s =
  let l1 := (log s ++ [Ext (provider_call base64Images)])%list in
  match reviews_of (analysed w (calls_of (log s)) base64Images) with
  | Return found =>
      (Return {| reviews := concat [] found; errorDetails := None |},
       mkState (dir s) l1)
  | Throw analysisError =>
      let l2 := (l1 ++ [fs_writeFile error_file (Text (own_json analysisError))])%list in
      match dir s with
      | Some d =>
          (Return {| reviews := []; errorDetails := Some analysisError |},
           mkState (Some (<[error_file := Text (own_json analysisError)]> d)) l2)
      | None => (Throw ENOENT, mkState None l2)
      end
  end.
Proof.
  unfold analyse, try_catch. cbv zeta.
  rewrite bind_run, analyzeScreenshots_run, bind_run, get_reviews_run.
  destruct (reviews_of _) as [found | e]; [reflexivity |].
  rewrite bind_run, writeFile_run. cbn [dir log].
  destruct (dir s); reflexivity.
Qed.

(** *** A run whose browser does not reject *)

Lemma rethrow_run {A} (c : M A) (s : State) :
  try_catch c (fun error => throw error) s = c s.
Proof. unfold try_catch, throw. destruct (c s) as [[a | e] s']; reflexivity. Qed.

Lemma try_finally_close (w : World) {A} (c : M A) (s : State) :
  try_finally c (await w browser_close) s =
  (match fault w (calls_of (log (snd (c s)))) browser_close with
   | Some e => Throw e
   | None => fst (c s)
   end,
   mkState (dir (snd (c s))) (log (snd (c s)) ++ [Ext browser_close])).
Proof.
  unfold try_finally. destruct (c s) as [r s']. rewrite await_run. cbn [fst snd].
  destruct (fault w _ _); reflexivity.
Qed.

Lemma measure_then_ok {A} (w : World) (k : N -> M A) (s : State) :
  fault w (calls_of (log s)) page_evaluate_measure = None ->
  (bodyHeight <- measure w ;; k bodyHeight) s =
  k (Math_max (dom w)) (mkState (dir s) (log s ++ [Ext page_evaluate_measure])).
Proof.
  intros H. unfold measure. rewrite bind_run, await_then_ok by exact H.
  reflexivity.
Qed.

(** With a browser that does not reject, a run opens and renders the page,
    clears the directory, captures [numScreenshots] frames into it, analyses
    them and closes the browser; its outcome is the one of the analysis. *)
Lemma extractReviews_browser_ok (w : World) (url : string) (s : State) :
  browser_ok w ->
  exists (fsevs : list Event) (bufs : list Buffer),
    let s1 := mkState (Some (frames_files 0 bufs (undeletable w (default ∅ (dir s)))))
                (log s ++ map Ext (chromium_launch :: browser_newPage :: render_calls url)
                       ++ fsevs ++ frames_log 0 bufs) in
    let r := analyse w (map toString_base64 bufs) s1 in
    length bufs = N.to_nat (numScreenshots w) /\
    calls_of fsevs = [] /\
    bufs = captured w (calls_of (log s) ++ chromium_launch :: browser_newPage
                                           :: render_calls url)
                    0 (N.to_nat (numScreenshots w)) /\
    extractReviews w url s =
      (fst r, mkState (dir (snd r)) (log (snd r) ++ [Ext browser_close])).
Proof.
  intros Hok. unfold extractReviews.
  rewrite !await_then_ok by (apply Hok; reflexivity). cbn [dir log].
  rewrite try_finally_close, rethrow_run. unfold extractReviews_body.
  rewrite !await_then_ok by (apply Hok; reflexivity). cbn [dir log].
  rewrite measure_then_ok by (apply Hok; reflexivity). cbn [dir log]. cbv zeta.
  edestruct (@clear_then_mkdir w Result) as (fsevs & Hclear & Hcalls & _).
  apply is_clearing_calls in Hcalls.
  rewrite Hclear. cbn [dir log]. rewrite bind_run.
  match goal with
  | |- context [captureFrames w ?n 0 [] ?s0] =>
      destruct (captureFrames_browser_ok w n Hok 0 [] s0 ltac:(cbn; eauto))
        as (imgs & s' & Hcap);
      pose proof (captureFrames_returns w n 0 [] s0 s' imgs Hcap)
        as (bufs & Hlen & Himgs & Hlog & Hdir & _ & Hbufs)
  end.
  cbn [dir log] in Hlog, Hdir, Hbufs.
  exists fsevs, bufs. cbv zeta.
  split; [exact Hlen |]. split; [exact Hcalls |].
  split.
  { rewrite Hbufs. f_equal. rewrite !calls_of_app, Hcalls, app_nil_r.
    cbn [calls_of]. rewrite <- !app_assoc. reflexivity. }
  rewrite Hcap. cbn [app] in Himgs. subst imgs.
  rewrite (Hok _ browser_close) by reflexivity.
  assert (Hs' : s' = mkState (Some (frames_files 0 bufs (undeletable w (default ∅ (dir s)))))
                  (log s ++ map Ext (chromium_launch :: browser_newPage :: render_calls url)
                         ++ fsevs ++ frames_log 0 bufs)).
  { destruct s' as [d' l']. cbn in Hlog, Hdir. rewrite Hdir, Hlog.
    f_equal. cbn [map render_calls app]. rewrite <- !app_assoc. reflexivity. }
  rewrite Hs'. reflexivity.
Qed.

(** *** What a computation adds to the log *)

Section Appends.

Context (P : Event -> Prop).

Lemma appends_ret {A} (a : A) : appends P (ret a).
Proof. intros s. exists []. rewrite app_nil_r. split; [reflexivity | constructor]. Qed.

Lemma appends_throw {A} (e : JSError) : appends P (@throw A e).
Proof. intros s. exists []. rewrite app_nil_r. split; [reflexivity | constructor]. Qed.

Lemma appends_bind {A B} (c : M A) (k : A -> M B) :
  appends P c -> (forall a, appends P (k a)) -> appends P (bind c k).
Proof.
  intros Hc Hk s. rewrite bind_run.
  destruct (Hc s) as (evs & Hlog & Hall).
  destruct (c s) as [[a | e] s1]; cbn [snd] in *.
  - destruct (Hk a s1) as (evs' & Hlog' & Hall').
    exists (evs ++ evs')%list. rewrite Hlog', Hlog, app_assoc.
    split; [reflexivity | apply Forall_app; auto].
  - exists evs. auto.
Qed.

Lemma appends_try_catch {A} (c : M A) (h : JSError -> M A) :
  appends P c -> (forall e, appends P (h e)) -> appends P (try_catch c h).
Proof.
  intros Hc Hh s. unfold try_catch.
  destruct (Hc s) as (evs & Hlog & Hall).
  destruct (c s) as [[a | e] s1]; cbn [snd] in *.
  - exists evs. auto.
  - destruct (Hh e s1) as (evs' & Hlog' & Hall').
    exists (evs ++ evs')%list. rewrite Hlog', Hlog, app_assoc.
    split; [reflexivity | apply Forall_app; auto].
Qed.

Lemma appends_await (w : World) (c : Call) : P (Ext c) -> appends P (await w c).
Proof.
  intros Hc s. rewrite await_run. exists [Ext c].
  split; [reflexivity | repeat constructor; exact Hc].
Qed.

Lemma appends_writeFile (file : string) (data : FileData) :
  P (fs_writeFile file data) -> appends P (writeFile file data).
Proof.
  intros Hw s. rewrite writeFile_run. exists [fs_writeFile file data].
  split; [destruct (dir s); reflexivity | repeat constructor; exact Hw].
Qed.

Hypothesis P_fs : forall e, calls_of [e] = [] -> P e.

Lemma Forall_P_fs (evs : list Event) : calls_of evs = [] -> Forall P evs.
Proof.
  induction evs as [| e evs IH]; intros H; [constructor |].
  destruct e; try discriminate; constructor; auto.
Qed.

Lemma appends_clearScreenshotsFolder (w : World) :
  appends P (clearScreenshotsFolder w).
Proof.
  intros s. rewrite clearScreenshotsFolder_run. eexists. cbn [snd log].
  split; [reflexivity | apply Forall_P_fs, is_clearing_calls, clearing_events].
Qed.

Lemma appends_mkdir_recursive : appends P mkdir_recursive.
Proof.
  intros s. rewrite mkdir_recursive_run. exists [fs_mkdir].
  split; [reflexivity | apply Forall_P_fs; reflexivity].
Qed.

Hypothesis P_calls :
  forall c, c <> browser_close -> c <> chromium_launch -> c <> browser_newPage ->
            P (Ext c).

Lemma appends_page_screenshot_buffer (w : World) (fullPage : bool) :
  appends P (page_screenshot_buffer w fullPage).
Proof.
  apply appends_bind.
  - apply appends_await, P_calls; discriminate.
  - intros _ s. exists []. rewrite app_nil_r. split; [reflexivity | constructor].
Qed.

Lemma appends_captureFrames (w : World) (n : nat) :
  forall i acc, appends P (captureFrames w n i acc).
Proof.
  induction n as [| n IH]; intros i acc; [apply appends_ret |].
  cbn [captureFrames].
  repeat first
    [ apply IH
    | apply appends_page_screenshot_buffer
    | apply appends_await, P_calls; discriminate
    | apply appends_writeFile, P_fs; reflexivity
    | apply appends_bind; [| intros ?] ].
Qed.

Lemma appends_analyse (w : World) (imgs : list string) : appends P (analyse w imgs).
Proof.
  intros s. rewrite analyse_run. cbv zeta.
  assert (Hp : P (Ext (provider_call imgs))) by (apply P_calls; discriminate).
  destruct (reviews_of _) as [found | e]; cbn [snd log].
  - exists [Ext (provider_call imgs)]. split; [reflexivity | repeat constructor; exact Hp].
  - exists [Ext (provider_call imgs); fs_writeFile error_file (Text (own_json e))].
    split.
    + destruct (dir s); cbn [snd log]; rewrite <- app_assoc; reflexivity.
    + repeat constructor; [exact Hp | apply P_fs; reflexivity].
Qed.

Lemma appends_extractReviews_body (w : World) (url : string) :
  appends P (extractReviews_body w url).
Proof.
  unfold extractReviews_body, measure.
  repeat first
    [ apply appends_ret
    | apply appends_clearScreenshotsFolder
    | apply appends_mkdir_recursive
    | apply appends_captureFrames
    | apply appends_analyse
    | apply appends_await, P_calls; discriminate
    | apply appends_bind; [| intros ?] ].
Qed.

End Appends.

(** *** The shape of a run, in any world *)

Lemma calls_of_map_Ext (cs : list Call) : calls_of (map Ext cs) = cs.
Proof. induction cs as [| c cs IH]; cbn; [| rewrite IH]; reflexivity. Qed.

Lemma browser_rejections_app (w : World) (cs1 : list Call) :
  forall (h : list Call) (cs2 : list Call),
    browser_rejections w h (cs1 ++ cs2) =
    browser_rejections w h cs1 ++ browser_rejections w (h ++ cs1) cs2.
Proof.
  induction cs1 as [| c cs1 IH]; intros h cs2; cbn [app browser_rejections].
  - rewrite app_nil_r. reflexivity.
  - rewrite IH, <- app_assoc. cbn [app].
    destruct (if on_browser c then fault w h c else None); reflexivity.
Qed.

Lemma browser_rejections_one (w : World) (h : list Call) (c : Call) :
  on_browser c = true ->
  browser_rejections w h [c] = match fault w h c with Some e => [e] | None => [] end.
Proof. intros Hc. cbn. rewrite Hc. destruct (fault w h c); reflexivity. Qed.

Lemma extractReviews_body_unfold (w : World) (url : string) (s : State) :
  extractReviews_body w url s =
  (await_all w (render_calls url) ;;
   clearScreenshotsFolder w ;; mkdir_recursive ;; capture_and_analyse w) s.
Proof.
  unfold extractReviews_body, measure, capture_and_analyse, numScreenshots.
  cbn [await_all render_calls].
  do 7 (rewrite ?bind_run, ?await_run; cbn [dir log];
        destruct (fault w _ _); [reflexivity |]).
  reflexivity.
Qed.

Lemma extractReviews_unfold (w : World) (url : string) (s : State) :
  extractReviews w url s =
  (await_all w [chromium_launch; browser_newPage] ;;
   try_finally (extractReviews_body w url) (await w browser_close)) s.
Proof.
  unfold extractReviews. cbn [await_all].
  do 2 (rewrite ?bind_run, ?await_run; cbn [dir log];
        destruct (fault w _ _); [reflexivity |]).
  cbn [ret]. rewrite !try_finally_close, rethrow_run. reflexivity.
Qed.

(** Calls on the browser awaited in sequence go through, or stop at the
    first that rejects. *)
Lemma await_all_prefix (w : World) (cs : list Call) :
  forallb on_browser cs = true ->
  forall l : list Event,
    (exists e k,
       (k < length cs)%nat /\
       browser_rejections w (calls_of l) (firstn (S k) cs) = [e] /\
       forall d, await_all w cs (mkState d l) =
                   (Throw e, mkState d (l ++ map Ext (firstn (S k) cs)))) \/
    (browser_rejections w (calls_of l) cs = [] /\
     forall d, await_all w cs (mkState d l) = (Return tt, mkState d (l ++ map Ext cs))).
Proof.
  induction cs as [| c cs IH]; intros Hb l.
  - right. split; [reflexivity |]. intros d. cbn. rewrite app_nil_r. reflexivity.
  - cbn [forallb] in Hb. apply andb_prop in Hb as [Hc Hcs]. cbn [await_all].
    destruct (fault w (calls_of l) c) as [e |] eqn:Hf.
    + left. exists e, 0%nat. split; [cbn; lia |].
      split; [cbn [firstn]; rewrite browser_rejections_one, Hf by exact Hc; reflexivity |].
      intros d. rewrite await_then_fault with (e := e) by exact Hf. reflexivity.
    + destruct (IH Hcs (l ++ [Ext c])) as [(e & k & Hk & Hrej & Hearly) | [Hrej Hok]];
        rewrite calls_of_app in Hrej; cbn [calls_of] in Hrej.
      * left. exists e, (S k). split; [cbn; lia |].
        split; [cbn [firstn browser_rejections]; rewrite Hc, Hf; exact Hrej |].
        intros d. rewrite await_then_ok by exact Hf. cbn [dir log].
        rewrite Hearly, <- app_assoc. reflexivity.
      * right. split; [cbn [browser_rejections]; rewrite Hc, Hf; exact Hrej |].
        intros d. rewrite await_then_ok by exact Hf. cbn [dir log].
        rewrite Hok, <- app_assoc. reflexivity.
Qed.

(** The loop in any world: it completes some frames, leaving their events
    and files, and either returns after the last or stops at a call of the
    next that rejects.  The buffers are the ones [page.screenshot] resolved
    to. *)
Lemma captureFrames_any (w : World) (n : nat) :
  forall (i : N) (acc : list string) (s : State) (d : gmap string FileData),
    dir s = Some d ->
    exists (bufs : list Buffer) (k : nat),
      log (snd (captureFrames w n i acc s)) =
        log s ++ frames_log i bufs
              ++ firstn k (frame_calls (i + N.of_nat (length bufs))) /\
      dir (snd (captureFrames w n i acc s)) = Some (frames_files i bufs d) /\
      bufs = captured w (calls_of (log s)) i (length bufs) /\
      ((fst (captureFrames w n i acc s) = Return (acc ++ map toString_base64 bufs) /\
        length bufs = n /\ k = 0%nat /\
        browser_rejections w (calls_of (log s))
          (calls_of (frames_log i bufs
                     ++ firstn k (frame_calls (i + N.of_nat (length bufs))))) = []) \/
       (exists e, fst (captureFrames w n i acc s) = Throw e /\
                  (length bufs < n)%nat /\ (0 < k <= 3)%nat /\
                  browser_rejections w (calls_of (log s))
                    (calls_of (frames_log i bufs
                               ++ firstn k (frame_calls (i + N.of_nat (length bufs)))))
                  = [e])).
Proof.
  induction n as [| n IH]; intros i acc [d0 l] d Hd; cbn [dir] in Hd; subst d0.
  - exists [], 0%nat. cbn. rewrite !app_nil_r. auto 8.
  - rewrite captureFrames_step. cbv zeta. cbn [dir log].
    rewrite !calls_of_app. cbn [calls_of].
    set (a := page_evaluate_scrollTo (i * viewportHeight)).
    set (h := calls_of l).
    destruct (fault w h a) as [e |] eqn:H1.
    { exists [], 1%nat. cbn [fst snd dir log frames_log frames_files length app captured].
      rewrite N.add_0_r. split; [reflexivity |]. split; [reflexivity |].
      split; [reflexivity |].
      right. exists e. split; [reflexivity |]. split; [lia |]. split; [lia |].
      cbn [firstn frame_calls calls_of browser_rejections on_browser].
      fold a. rewrite H1. reflexivity. }
    destruct (fault w (h ++ [a]) (page_waitForTimeout 2000)) as [e |] eqn:H2.
    { exists [], 2%nat. cbn [fst snd dir log frames_log frames_files length app captured].
      rewrite N.add_0_r. split; [cbn; rewrite <- app_assoc; reflexivity |].
      split; [reflexivity |]. split; [reflexivity |].
      right. exists e. split; [reflexivity |]. split; [lia |]. split; [lia |].
      cbn [firstn frame_calls calls_of browser_rejections on_browser].
      fold a. rewrite H1, H2. reflexivity. }
    destruct (fault w ((h ++ [a]) ++ [page_waitForTimeout 2000]) (page_screenshot false))
      as [e |] eqn:H3.
    { exists [], 3%nat. cbn [fst snd dir log frames_log frames_files length app captured].
      rewrite N.add_0_r. split; [cbn; rewrite <- !app_assoc; reflexivity |].
      split; [reflexivity |]. split; [reflexivity |].
      right. exists e. split; [reflexivity |]. split; [lia |]. split; [lia |].
      cbn [firstn frame_calls calls_of browser_rejections on_browser].
      fold a. rewrite H1, H2, H3. reflexivity. }
    set (h' := ((h ++ [a]) ++ [page_waitForTimeout 2000]) ++ [page_screenshot false]).
    assert (Hh' : h' = h ++ [a; page_waitForTimeout 2000; page_screenshot false]).
    { unfold h'. rewrite <- !app_assoc. reflexivity. }
    match goal with
    | |- context [captureFrames w n (i + 1) ?acc' ?s1] =>
        destruct (IH (i + 1) acc' s1 _ eq_refl)
          as (bufs & k & Hlog & Hdir & Hbufs & Hcase)
    end.
    cbn [log] in Hlog, Hbufs, Hcase. unfold a in Hbufs, Hcase.
    rewrite calls_of_frame in Hbufs, Hcase by reflexivity. fold a h in Hbufs, Hcase.
    exists (screenshot w h' :: bufs), k.
    rewrite Hlog, Hdir. cbn [log dir frames_log frames_files frame_events length].
    replace (i + N.of_nat (S (length bufs))) with (i + 1 + N.of_nat (length bufs)) by lia.
    split; [rewrite <- !app_assoc; reflexivity |].
    split; [reflexivity |].
    split; [cbn [captured]; fold a; rewrite <- Hbufs, <- Hh'; reflexivity |].
    assert (Hrej : forall evs,
              browser_rejections w h
                (calls_of ([Ext a; Ext (page_waitForTimeout 2000);
                            Ext (page_screenshot false);
                            fs_writeFile (screenshot_file i) (Binary (screenshot w h'))]
                           ++ evs))
              = browser_rejections w
                  (h ++ [a; page_waitForTimeout 2000; page_screenshot false])
                  (calls_of evs)).
    { intros evs. cbn [app calls_of browser_rejections on_browser].
      rewrite H1, H2, H3, <- !app_assoc. reflexivity. }
    fold a. cbn [app] in Hrej |- *.
    destruct Hcase as [(Hret & Hlen & Hk & Hnone) | (e & Hthrow & Hlen & Hk & Hone)].
    + left. rewrite Hret, <- app_assoc. cbn [map app].
      split; [reflexivity |]. split; [lia |]. split; [exact Hk |].
      rewrite <- Hnone. apply Hrej.
    + right. exists e. rewrite Hthrow. split; [reflexivity |].
      split; [lia |]. split; [exact Hk |].
      rewrite <- Hone. apply Hrej.
Qed.

Lemma last_two {A} (x : A) (o : option A) :
  last (x :: match o with Some y => [y] | None => [] end) = Some (default x o).
Proof. destruct o; reflexivity. Qed.

(** Every run has one of four shapes: the browser or the page does not open;
    a call of the Renderer rejects; a call of the capture loop rejects; or
    all frames are captured and analysed.  The browser is closed at the end
    in the last three.  A run throws the last rejection of a call on the
    browser, and returns when there is none. *)
Lemma extractReviews_shape (w : World) (url : string) (s : State) :
  let n := N.to_nat (numScreenshots w) in
  let run := extractReviews w url s in
  let h := calls_of (log s) in
  let d0 := undeletable w (default ∅ (dir s)) in
  let rejected (evs : list Event) := browser_rejections w h (calls_of evs) in
  (exists e k,
     (k < 2)%nat /\ fst run = Throw e /\ dir (snd run) = dir s /\
     log (snd run) = log s ++ map Ext (firstn (S k) opening_calls) /\
     last (rejected (map Ext (firstn (S k) opening_calls))) = Some e) \/
  (exists e k,
     (k < 7)%nat /\ fst run = Throw e /\ dir (snd run) = dir s /\
     log (snd run) =
       log s ++ map Ext (opening_calls ++ firstn (S k) (render_calls url)
                                       ++ [browser_close]) /\
     last (rejected (map Ext (opening_calls ++ firstn (S k) (render_calls url)
                                            ++ [browser_close]))) = Some e) \/
  (exists e fsevs bufs k,
     (length bufs < n)%nat /\ (0 < k <= 3)%nat /\
     forallb is_clearing fsevs = true /\ In fs_mkdir fsevs /\
     fst run = Throw e /\
     dir (snd run) = Some (frames_files 0 bufs d0) /\
     log (snd run) =
       log s ++ map Ext (opening_calls ++ render_calls url) ++ fsevs
             ++ frames_log 0 bufs
             ++ firstn k (frame_calls (N.of_nat (length bufs)))
             ++ [Ext browser_close] /\
     bufs = captured w (h ++ opening_calls ++ render_calls url) 0 (length bufs) /\
     last (rejected (map Ext (opening_calls ++ render_calls url) ++ fsevs
                     ++ frames_log 0 bufs
                     ++ firstn k (frame_calls (N.of_nat (length bufs)))
                     ++ [Ext browser_close])) = Some e) \/
  (exists fsevs bufs,
     length bufs = n /\ forallb is_clearing fsevs = true /\ In fs_mkdir fsevs /\
     let before := map Ext (opening_calls ++ render_calls url) ++ fsevs
                   ++ frames_log 0 bufs in
     let s1 := mkState (Some (frames_files 0 bufs d0)) (log s ++ before) in
     let a := analyse w (map toString_base64 bufs) s1 in
     dir (snd run) = dir (snd a) /\
     log (snd run) = log (snd a) ++ [Ext browser_close] /\
     fst run = match fault w (calls_of (log (snd a))) browser_close with
               | Some e => Throw e
               | None => fst a
               end /\
     bufs = captured w (h ++ opening_calls ++ render_calls url) 0 n /\
     rejected before = []).
Proof.
  cbv zeta. destruct s as [d l]. cbn [dir log].
  rewrite extractReviews_unfold, bind_run.
  destruct (await_all_prefix w opening_calls eq_refl l)
    as [(e & k & Hk & Hrej0 & Hopen) | [Hrej0 Hopen]];
    fold opening_calls; rewrite (Hopen d).
  { left. exists e, k. cbn [fst snd dir log].
    rewrite calls_of_map_Ext, Hrej0. auto 6. }
  rewrite try_finally_close, extractReviews_body_unfold, bind_run.
  destruct (await_all_prefix w (render_calls url) eq_refl (l ++ map Ext opening_calls))
    as [(e & k & Hk & Hrej1 & Hrender) | [Hrej1 Hrender]]; rewrite (Hrender d);
    rewrite calls_of_app, calls_of_map_Ext in Hrej1.
  { right. left. cbn [fst snd dir log].
    assert (Hlast : forall o : option JSError,
      fault w (calls_of ((l ++ map Ext opening_calls)
                         ++ map Ext (firstn (S k) (render_calls url)))) browser_close = o ->
      last (browser_rejections w (calls_of l)
              (calls_of (map Ext (opening_calls ++ firstn (S k) (render_calls url)
                                                ++ [browser_close]))))
      = Some (default e o)).
    { intros o Ho. rewrite calls_of_map_Ext, !browser_rejections_app, Hrej0, Hrej1.
      rewrite browser_rejections_one by reflexivity.
      rewrite !calls_of_app, !calls_of_map_Ext in Ho. rewrite Ho.
      cbn [app]. apply last_two. }
    destruct (fault w _ browser_close) as [e' |] eqn:Hclose;
      [exists e' | exists e];
      (exists k; split; [exact Hk |]; split; [reflexivity |];
       split; [reflexivity |];
       split; [rewrite !map_app, <- !app_assoc; reflexivity |];
       exact (Hlast _ eq_refl)). }
  destruct (@clear_then_mkdir w Result (capture_and_analyse w)
              (mkState d ((l ++ map Ext opening_calls) ++ map Ext (render_calls url))))
    as (fsevs & Hclear & Hclearing & Hmk & _).
  rewrite Hclear. cbn [dir log]. unfold capture_and_analyse. rewrite bind_run.
  match goal with
  | |- context [captureFrames w ?n 0 [] ?s1] =>
      destruct (captureFrames_any w n 0 [] s1 _ eq_refl)
        as (bufs & k & Hlog & Hdir & Hbufs & Hcase)
  end.
  rewrite N.add_0_l in Hlog, Hcase. cbn [log] in Hlog, Hbufs, Hcase.
  assert (Hh : calls_of (((l ++ map Ext opening_calls) ++ map Ext (render_calls url))
                         ++ fsevs)
               = calls_of l ++ opening_calls ++ render_calls url).
  { rewrite !calls_of_app, !calls_of_map_Ext, (is_clearing_calls _ Hclearing),
      app_nil_r, <- app_assoc. reflexivity. }
  rewrite Hh in Hbufs, Hcase.
  assert (Hbefore : forall evs,
    browser_rejections w (calls_of l)
      (calls_of (map Ext (opening_calls ++ render_calls url) ++ fsevs ++ evs))
    = browser_rejections w (calls_of l ++ opening_calls ++ render_calls url)
        (calls_of evs)).
  { intros evs.
    rewrite !calls_of_app, calls_of_map_Ext, (is_clearing_calls _ Hclearing).
    cbn [app]. rewrite <- app_assoc, !browser_rejections_app, Hrej0, Hrej1.
    rewrite <- app_assoc. reflexivity. }
  destruct Hcase as [(Hret & Hlen & Hk & Hnone) | (e & Hthrow & Hlen & Hk & Hone)].
  - right. right. right. exists fsevs, bufs.
    split; [exact Hlen |]. split; [exact Hclearing |]. split; [exact Hmk |].
    subst k. cbn [firstn] in Hlog, Hnone. rewrite app_nil_r in Hlog, Hnone.
    destruct (captureFrames w _ 0 [] _) as [r t]. cbn [fst snd] in *.
    subst r. cbn [app].
    assert (Ht : t = mkState (Some (frames_files 0 bufs (undeletable w (default ∅ d))))
                   (l ++ map Ext (opening_calls ++ render_calls url) ++ fsevs
                      ++ frames_log 0 bufs)).
    { destruct t as [dt lt]. cbn [dir log] in *. subst dt lt.
      rewrite !map_app, <- !app_assoc. reflexivity. }
    rewrite Ht.
    split; [reflexivity |]. split; [reflexivity |]. split; [reflexivity |].
    split; [rewrite <- Hlen; exact Hbufs |].
    rewrite Hbefore. exact Hnone.
  - right. right. left.
    destruct (captureFrames w _ 0 [] _) as [r t]. cbn [fst snd] in *.
    subst r. cbn [fst snd]. rewrite Hdir, Hlog.
    assert (Hlast : forall o : option JSError,
      fault w (calls_of ((((l ++ map Ext opening_calls) ++ map Ext (render_calls url))
                          ++ fsevs)
                         ++ frames_log 0 bufs
                         ++ firstn k (frame_calls (N.of_nat (length bufs)))))
        browser_close = o ->
      last (browser_rejections w (calls_of l)
              (calls_of (map Ext (opening_calls ++ render_calls url) ++ fsevs
                         ++ frames_log 0 bufs
                         ++ firstn k (frame_calls (N.of_nat (length bufs)))
                         ++ [Ext browser_close])))
      = Some (default e o)).
    { intros o Ho. rewrite Hbefore.
      rewrite (app_assoc (frames_log 0 bufs)), (calls_of_app (_ ++ _) [Ext browser_close]).
      cbn [calls_of]. rewrite browser_rejections_app, Hone.
      rewrite browser_rejections_one by reflexivity.
      rewrite calls_of_app, Hh in Ho. rewrite Ho. cbn [app]. apply last_two. }
    destruct (fault w _ browser_close) as [e' |] eqn:Hclose;
      [exists e' | exists e];
      (exists fsevs, bufs, k;
       split; [exact Hlen |]; split; [exact Hk |];
       split; [exact Hclearing |]; split; [exact Hmk |];
       split; [reflexivity |]; split; [reflexivity |];
       split; [cbn [log]; rewrite !map_app, <- !app_assoc; reflexivity |];
       split; [exact Hbufs |];
       exact (Hlast _ eq_refl)).
Qed.

(** *** The end-to-end scenario *)

(** The end-to-end scenario of the specification: a page 2500 high gives
    frames at 0, 1000 and 2000, and the one review comes back verbatim. *)
Example scenario_three_frames :
  fst (api_reviews (replying 2500 great_review) (Some shop) fresh_start)
  = Return {| status := 200;
              json := ReviewsBody 1
                [VObject [(js "title", VString (js "Great"));
                          (js "body", VString (js "Works well"));
                          (js "rating", VNumber (js "5"));
                          (js "reviewer", VString (js "A"))]] None |}
  /\ calls_of (log (snd (api_reviews (replying 2500 great_review) (Some shop) fresh_start)))
     = (chromium_launch :: browser_newPage :: render_calls shop)
       ++ [page_evaluate_scrollTo 0; page_waitForTimeout 2000; page_screenshot false;
           page_evaluate_scrollTo 1000; page_waitForTimeout 2000; page_screenshot false;
           page_evaluate_scrollTo 2000; page_waitForTimeout 2000; page_screenshot false;
           provider_call [toString_base64 png; toString_base64 png; toString_base64 png];
           browser_close].
Proof. split; vm_compute; reflexivity. Qed.

(* ===================================================================== *)
(** ** The properties of the specification *)
(* ===================================================================== *)

(** *** Height measurement *)

(** C9. The measured page height is the maximum of six sizes of the page:
    scroll, offset and client height, each of the body and of the document
    element.  It is one of the six and at least as large as each. *)
Theorem bodyHeight_is_max_of_six (w : World) (s : State) :
  let candidates :=
    [body_scrollHeight (dom w); documentElement_scrollHeight (dom w);
     body_offsetHeight (dom w); documentElement_offsetHeight (dom w);
     body_clientHeight (dom w); documentElement_clientHeight (dom w)] in
  fst (measure w s) =
    match fault w (calls_of (log s)) page_evaluate_measure with
    | Some e => Throw e
    | None => Return (Math_max (dom w))
    end /\
  length candidates = 6%nat /\
  In (Math_max (dom w)) candidates /\
  Forall (fun c => c <= Math_max (dom w)) candidates.
Proof.
  cbv zeta. split; [| split; [reflexivity | split]].
  - unfold measure. rewrite bind_run, await_run.
    destruct (fault w _ _); reflexivity.
  - apply Math_max_attained.
  - apply Math_max_ge.
Qed.

(** *** The handler *)

Lemma api_reviews_run (w : World) (url : string) (s : State) :
  url <> "" ->
  api_reviews w (Some url) s =
  match extractReviews w url s with
  | (Return result, s') => (Return (success result), s')
  | (Throw error, s') =>
      (Return (if String.eqb (name error) "TimeoutError"
               then gateway_timeout else server_error error), s')
  end.
Proof.
  intros Hurl. destruct url as [| a url]; [congruence |].
  unfold api_reviews, try_catch. rewrite bind_run.
  destruct (extractReviews w _ s) as [[result | error] s']; [reflexivity |].
  destruct (String.eqb _ _); reflexivity.
Qed.

Ltac norm_calls :=
  cbn [fst snd dir log]; rewrite ?calls_of_app; cbn [calls_of];
  rewrite <- ?app_assoc; cbn [app].


Lemma analyse_log (w : World) (imgs : list string) (s : State) :
  exists tail : list Event,
    log (snd (analyse w imgs s)) = log s ++ Ext (provider_call imgs) :: tail /\
    calls_of tail = [].
Proof.
  rewrite analyse_run. cbv zeta.
  destruct (reviews_of _) as [found | e]; cbn [snd log].
  - exists []. split; reflexivity.
  - exists [fs_writeFile error_file (Text (own_json e))].
    split; [| reflexivity].
    destruct (dir s); cbn [snd log]; rewrite <- app_assoc; reflexivity.
Qed.






(** *** Provider failures *)

(** A rejection of the provider never leaves [analyzeScreenshots]: with a
    working browser the run returns no review and no error detail. *)
Lemma provider_failure_swallowed (w : World) (url : string) (s : State) :
  browser_ok w ->
  (forall h imgs, fault w h (provider_call imgs) <> None) ->
  fst (extractReviews w url s) = Return {| reviews := []; errorDetails := None |}.
Proof.
  intros Hok Hdown.
  destruct (extractReviews_browser_ok w url s Hok) as (fsevs & bufs & H).
  cbv zeta in H. destruct H as (_ & _ & _ & ->). cbn [fst].
  rewrite analyse_run. cbv zeta. unfold analysed.
  destruct (fault w _ (provider_call _)) eqn:Hf; [reflexivity |].
  exfalso. exact (Hdown _ _ Hf).
Qed.

(** C1, at the failing input.  The browser works, the page is 1800 high and
    the provider call times out.  The handler answers 200 with no reviews,
    but [errorDetails] is [null] and no error file is written: the rejection
    is caught inside [analyzeScreenshots] (lines 126-129) and never reaches
    the handler of lines 196-202 that would record it. *)
Theorem provider_timeout_leaves_no_error_details :
  let run := api_reviews (provider_down 1800) (Some shop) fresh_start in
  fst run = Return {| status := 200; json := ReviewsBody 0 [] None |} /\
  calls_of (log (snd run)) =
    (chromium_launch :: browser_newPage :: render_calls shop)
    ++ [page_evaluate_scrollTo 0; page_waitForTimeout 2000; page_screenshot false;
        page_evaluate_scrollTo 1000; page_waitForTimeout 2000; page_screenshot false;
        provider_call [toString_base64 png; toString_base64 png];
        browser_close] /\
  fault (provider_down 1800) [] (provider_call [toString_base64 png; toString_base64 png])
    = Some provider_timeout /\
  (dir (snd run) ≫= fun d => d !! error_file) = None /\
  (dir (snd run) ≫= fun d => d !! screenshot_file 1) = Some (Binary png).
Proof. cbv zeta. repeat split; vm_compute; reflexivity. Qed.

(** *** The number of frames *)

(** C2, counterexample.  On a page of height 0 no frame is captured, yet the
    provider is called, with an empty list of images. *)
Lemma zero_height_still_calls_provider :
  numScreenshots (replying 0 great_review) = 0 /\
  calls_of (log (snd (extractReviews (replying 0 great_review) shop fresh_start))) =
    (chromium_launch :: browser_newPage :: render_calls shop)
    ++ [provider_call []; browser_close].
Proof. split; vm_compute; reflexivity. Qed.

(** C2, as amended.  With a browser that does not reject, a run captures
    exactly [ceil(h / 1000)] frames, [h] being the measured height: that
    number is the least [n] with [h <= n * 1000], it is 1 when
    [0 < h <= 1000] and 0 when [h = 0].  The frames captured, also when there
    are none, are then passed to the provider in one call. *)
Theorem frame_count_is_ceiling (w : World) (url : string) (s : State) :
  browser_ok w ->
  let h := Math_max (dom w) in
  let n := numScreenshots w in
  (h <= n * viewportHeight /\ forall m, h <= m * viewportHeight -> n <= m) /\
  (0 < h <= viewportHeight -> n = 1) /\
  (h = 0 -> n = 0) /\
  exists (fsevs tail : list Event) (bufs : list Buffer),
    N.of_nat (length bufs) = n /\
    calls_of fsevs = [] /\ calls_of tail = [] /\
    log (snd (extractReviews w url s)) =
      log s ++ map Ext (chromium_launch :: browser_newPage :: render_calls url)
            ++ fsevs ++ frames_log 0 bufs
            ++ Ext (provider_call (map toString_base64 bufs)) :: tail
            ++ [Ext browser_close].
Proof.
  intros Hok h n. subst h n. unfold numScreenshots.
  split; [apply Math_ceil_div_spec; reflexivity |].
  split; [intros [? ?]; apply Math_ceil_div_one; assumption |].
  split; [intros ->; apply Math_ceil_div_zero; reflexivity |].
  destruct (extractReviews_browser_ok w url s Hok) as (fsevs & bufs & H).
  cbv zeta in H. destruct H as (Hlen & Hcalls & _ & ->). cbn [snd log].
  match goal with
  | |- context [analyse w ?imgs ?s1] =>
      destruct (analyse_log w imgs s1) as (tail & -> & Htail)
  end.
  exists fsevs, tail, bufs. cbn [log].
  split; [rewrite Hlen; apply N2Nat.id |].
  split; [exact Hcalls |]. split; [exact Htail |].
  rewrite <- !app_assoc. reflexivity.
Qed.

(** A page 2500 high: three frames. *)
Lemma frame_count_is_ceiling_witness :
  numScreenshots (replying 2500 great_review) = 3 /\
  exists (fsevs tail : list Event) (bufs : list Buffer),
    N.of_nat (length bufs) = 3 /\
    calls_of fsevs = [] /\ calls_of tail = [] /\
    log (snd (extractReviews (replying 2500 great_review) shop fresh_start)) =
      log fresh_start
      ++ map Ext (chromium_launch :: browser_newPage :: render_calls shop)
      ++ fsevs ++ frames_log 0 bufs
      ++ Ext (provider_call (map toString_base64 bufs)) :: tail
      ++ [Ext browser_close].
Proof.
  split; [reflexivity |].
  apply (frame_count_is_ceiling (replying 2500 great_review) shop fresh_start).
  intros h c _. reflexivity.
Defined.

(** *** A reply that parses to something other than a review list *)

(** C10, counterexample.  The provider answers the literal [null].  The
    Reconciler returns it as parsed and reading its [reviews] throws, but the
    [catch] of lines 196-202 takes the error: the answer is a 200 with no
    reviews and the [TypeError] as [errorDetails], not a 500. *)
Lemma null_reply_is_not_a_500 :
  reconciled (js "null") = VNull /\
  reviews_of VNull = Throw (TypeError "null (reading 'reviews')") /\
  fst (api_reviews (replying 1800 (js "null")) (Some shop) fresh_start) =
    Return {| status := 200;
              json := ReviewsBody 0 []
                        (Some (TypeError "null (reading 'reviews')")) |}.
Proof. repeat split; vm_compute; reflexivity. Qed.

(** C10, as amended.  When nothing rejects and the cleaned reply parses to
    the literal [null], the Reconciler returns [null] as it is, the read of
    its [reviews] throws a [TypeError], the pipeline catches it, writes it to
    the error file, and the request is answered with status 200, an empty
    review list and that error as [errorDetails]. *)
Theorem null_reply_degrades (w : World) (url : string) (s : State) (content : text) :
  url <> "" ->
  calm w ->
  (forall imgs, exists rest, completion w imgs = Some content :: rest) ->
  parse (trim (strip_fences content)) = Some VNull ->
  let oops := TypeError "null (reading 'reviews')" in
  reconciled content = VNull /\
  reviews_of VNull = Throw oops /\
  fst (api_reviews w (Some url) s) =
    Return {| status := 200; json := ReviewsBody 0 [] (Some oops) |} /\
  (dir (snd (api_reviews w (Some url) s)) ≫= fun d => d !! error_file)
    = Some (Text "{}").
Proof.
  intros Hurl Hcalm Hreply Hparse oops.
  assert (Hrec : reconciled content = VNull).
  { unfold reconciled. cbv zeta. rewrite Hparse. reflexivity. }
  split; [exact Hrec |]. split; [reflexivity |].
  rewrite api_reviews_run by exact Hurl.
  destruct (extractReviews_browser_ok w url s (calm_browser_ok w Hcalm))
    as (fsevs & bufs & H).
  cbv zeta in H. destruct H as (_ & _ & _ & ->).
  rewrite analyse_run. cbv zeta. unfold analysed.
  rewrite Hcalm. destruct (Hreply (image_urls (map toString_base64 bufs))) as [rest ->].
  rewrite Hrec. cbn [reviews_of dir fst snd].
  split; [reflexivity |].
  cbn. apply lookup_insert_eq.
Qed.

Lemma null_reply_degrades_witness :
  fst (api_reviews (replying 1800 (js "null")) (Some shop) fresh_start) =
    Return {| status := 200;
              json := ReviewsBody 0 []
                        (Some (TypeError "null (reading 'reviews')")) |}.
Proof.
  refine (proj1 (proj2 (proj2
    (null_reply_degrades (replying 1800 (js "null")) shop fresh_start (js "null")
       _ _ _ _)))).
  - discriminate.
  - intros h c. reflexivity.
  - intros imgs. exists []. reflexivity.
  - vm_compute. reflexivity.
Defined.

(** *** The Reconciler *)

(** C3, at the failing input.  The provider answers the JSON text [null].
    The cleaned reply parses, and the parsed value is returned as it is
    (lines 107-109): [analyzeScreenshots] resolves to [null], which is no
    object and holds no review list, although the function documents its
    result as an object containing the extracted reviews (lines 45-49) and
    its two fallbacks return [{ reviews: [] }] (lines 124 and 128).  The
    same happens for every valid JSON text of another shape, such as
    [[1, 2]]. *)
Theorem reconciler_may_return_null :
  parse (trim (strip_fences (js "null"))) = Some VNull /\
  reconcile (js "null") fresh_start = (Return VNull, fresh_start) /\
  fst (analyzeScreenshots (replying 1800 (js "null")) [] fresh_start) = Return VNull /\
  is_object VNull = false /\
  has_reviews_array VNull = false /\
  reconciled (js "[1, 2]") = VArray [VNumber (js "1"); VNumber (js "2")] /\
  has_reviews_array (reconciled (js "[1, 2]")) = false.
Proof. repeat split; vm_compute; reflexivity. Qed.

(** What does hold of the Reconciler.  For every reply it returns a value
    and never throws, and so does [analyzeScreenshots] whatever the provider
    does.  When neither the cleaned reply nor its brace match parses, the
    value is [{ reviews: [] }]; so it is for the empty reply, for prose and
    for JSON cut short.  A reply that parses is returned as parsed, with no
    check of its shape. *)
Lemma reconciler_never_throws
  (w : World) (base64Images : list string) (content : text) (s : State) :
  let cleanedContent := trim (strip_fences content) in
  reconcile content s = (Return (reconciled content), s) /\
  (exists v, fst (analyzeScreenshots w base64Images s) = Return v) /\
  (parse cleanedContent = None ->
   (forall jsonMatch, match_braces cleanedContent = Some jsonMatch ->
                      parse jsonMatch = None) ->
   reconciled content = empty_reviews) /\
  (forall v, parse cleanedContent = Some v -> reconciled content = v) /\
  (forall jsonMatch v, parse cleanedContent = None ->
     match_braces cleanedContent = Some jsonMatch -> parse jsonMatch = Some v ->
     reconciled content = v) /\
  reconciled [] = empty_reviews /\
  reconciled (js "Sorry, I cannot read any review on these screenshots.")
    = empty_reviews /\
  reconciled (jsq "{'reviews': [{'title': 'Great', 'body': 'Works w")
    = empty_reviews /\
  reconciled (jsq "{'reviews': [{'title': 'Great'}, {'title': 'Go")
    = empty_reviews.
Proof.
  cbv zeta. split; [apply reconcile_run |].
  split; [rewrite analyzeScreenshots_run; eauto |].
  unfold reconciled. cbv zeta.
  split; [| split; [| split]].
  - intros Hparse Hmatch. rewrite Hparse.
    destruct (match_braces _) as [m |]; [| reflexivity].
    rewrite (Hmatch m eq_refl). reflexivity.
  - intros v ->. reflexivity.
  - intros m v -> -> ->. reflexivity.
  - repeat split; vm_compute; reflexivity.
Qed.

(** A reply in prose, with no brace in it. *)
Example prose_reply_degrades :
  reconciled (js "I could not find reviews.") = empty_reviews.
Proof.
  refine (proj1 (proj2 (proj2
    (reconciler_never_throws (replying 0 []) [] (js "I could not find reviews.")
       fresh_start))) _ _).
  - vm_compute. reflexivity.
  - intros m Hm. vm_compute in Hm. discriminate.
Qed.

(** *** Fences and prose around a payload *)

Lemma starts_with_cut (p : text) :
  forallb in_fence p = true ->
  forall (a b : text) (c : N),
    in_fence c = false ->
    starts_with p (a ++ c :: b) = starts_with p a.
Proof.
  induction p as [| x p IH]; intros Hp a b c Hc; [destruct a; reflexivity |].
  cbn in Hp. apply andb_prop in Hp as [Hx Hp].
  destruct a as [| y a]; cbn.
  - destruct (N.eqb_spec x c) as [-> |]; [congruence | reflexivity].
  - rewrite (IH Hp) by exact Hc. reflexivity.
Qed.

Lemma starts_with_length (p a : text) :
  starts_with p a = true -> (length p <= length a)%nat.
Proof.
  revert a. induction p as [| x p IH]; intros a H; cbn; [lia |].
  destruct a as [| y a]; [discriminate |].
  cbn in H. apply andb_prop in H as [_ H]. apply IH in H. cbn. lia.
Qed.

(** An attempt of the fence pattern does not see past a code unit the
    pattern cannot match, and a match lies before it. *)
Lemma fence_match_cut (a b : text) (c : N) :
  in_fence c = false ->
  fence_match (a ++ c :: b) = fence_match a /\
  (forall n, fence_match a = Some n -> (n <= length a)%nat).
Proof.
  intros Hc. unfold fence_match.
  rewrite !starts_with_cut by (exact Hc || reflexivity).
  split; [reflexivity |]. intros n.
  destruct (starts_with fence_json a) eqn:H1.
  - destruct (starts_with (fence_json ++ [newline]) a) eqn:H2;
      intros [= <-].
    + apply starts_with_length in H2. exact H2.
    + apply starts_with_length in H1. exact H1.
  - destruct (starts_with (newline :: fence) a) eqn:H3.
    + intros [= <-]. apply starts_with_length in H3. exact H3.
    + destruct (starts_with fence a) eqn:H4; [| discriminate].
      intros [= <-]. apply starts_with_length in H4. exact H4.
Qed.

Lemma strip_from_cut (a : text) :
  forall (skip : nat) (b : text) (c : N),
    in_fence c = false ->
    (skip <= length a)%nat ->
    strip_from skip (a ++ c :: b) = strip_from skip a ++ c :: strip_from 0 b.
Proof.
  induction a as [| x a IH]; intros skip b c Hc Hskip.
  - destruct skip; [| cbn in Hskip; lia].
    cbn [app strip_from].
    destruct (fence_match_cut [] b c Hc) as [Hm _]. cbn [app] in Hm.
    rewrite Hm. reflexivity.
  - cbn [app strip_from]. destruct skip as [| k].
    + destruct (fence_match_cut (x :: a) b c Hc) as [Hm Hlen].
      cbn [app] in Hm. rewrite Hm.
      destruct (fence_match (x :: a)) as [[| k] |] eqn:Hf.
      * cbn [app]. rewrite IH by (exact Hc || lia). reflexivity.
      * specialize (Hlen _ eq_refl). cbn in Hlen.
        apply IH; [exact Hc | lia].
      * cbn [app]. rewrite IH by (exact Hc || lia). reflexivity.
    + cbn in Hskip. apply IH; [exact Hc | lia].
Qed.

(** Stripping and trimming only remove code units. *)
Lemma strip_from_forallb (P : N -> bool) (a : text) :
  forall skip, forallb P a = true -> forallb P (strip_from skip a) = true.
Proof.
  induction a as [| x a IH]; intros skip H; [reflexivity |].
  cbn in H. apply andb_prop in H as [Hx Ha].
  cbn [strip_from]. destruct skip as [| k]; [| apply IH, Ha].
  destruct (fence_match (x :: a)) as [[| k] |];
    try (apply IH, Ha); cbn; rewrite Hx; apply IH, Ha.
Qed.

Lemma trimStart_forallb (P : N -> bool) (a : text) :
  forallb P a = true -> forallb P (trimStart a) = true.
Proof.
  induction a as [| x a IH]; intros H; [reflexivity |].
  cbn [trimStart]. destruct (is_js_space x); [| exact H].
  cbn in H. apply andb_prop in H as [_ Ha]. apply IH, Ha.
Qed.

Lemma forallb_rev (P : N -> bool) (a : text) :
  forallb P a = true -> forallb P (rev a) = true.
Proof.
  rewrite !forallb_forall. intros H x Hx. apply H, in_rev, Hx.
Qed.

Lemma trimEnd_forallb (P : N -> bool) (a : text) :
  forallb P a = true -> forallb P (trimEnd a) = true.
Proof.
  intros H. unfold trimEnd.
  apply forallb_rev, trimStart_forallb, forallb_rev, H.
Qed.

Lemma trimStart_cut (a b : text) (c : N) :
  is_js_space c = false ->
  trimStart (a ++ c :: b) = trimStart a ++ c :: b.
Proof.
  intros Hc. induction a as [| x a IH]; cbn [app trimStart].
  - rewrite Hc. reflexivity.
  - destruct (is_js_space x); [exact IH | reflexivity].
Qed.

Lemma trimEnd_cut (a b : text) (c : N) :
  is_js_space c = false ->
  trimEnd (a ++ c :: b) = a ++ c :: trimEnd b.
Proof.
  intros Hc. unfold trimEnd.
  rewrite rev_app_distr. cbn [rev]. rewrite <- app_assoc. cbn [app].
  rewrite trimStart_cut by exact Hc.
  rewrite rev_app_distr. cbn [rev]. rewrite rev_involutive, <- app_assoc.
  reflexivity.
Qed.

Lemma from_first_open_cut (a b : text) :
  forallb not_brace a = true ->
  from_first_open (a ++ lbrace :: b) = Some b.
Proof.
  induction a as [| x a IH]; intros H; [reflexivity |].
  cbn in H. apply andb_prop in H as [Hx Ha].
  cbn [app from_first_open].
  unfold not_brace in Hx. apply andb_prop in Hx as [Hx _].
  apply negb_true_iff in Hx. rewrite Hx. apply IH, Ha.
Qed.

Lemma upto_last_close_none (b : text) :
  forallb not_brace b = true -> upto_last_close b = None.
Proof.
  induction b as [| x b IH]; intros H; [reflexivity |].
  cbn in H. apply andb_prop in H as [Hx Hb].
  cbn [upto_last_close]. rewrite (IH Hb).
  unfold not_brace in Hx. apply andb_prop in Hx as [_ Hx].
  apply negb_true_iff in Hx. rewrite Hx. reflexivity.
Qed.

Lemma upto_last_close_cut (a b : text) :
  forallb not_brace b = true ->
  upto_last_close (a ++ rbrace :: b) = Some (a ++ [rbrace]).
Proof.
  intros Hb. induction a as [| x a IH]; cbn [app upto_last_close].
  - rewrite (upto_last_close_none b Hb). reflexivity.
  - rewrite IH. reflexivity.
Qed.

(** The brace match of a text [{ ... }] with brace-free text around it is
    the text [{ ... }]. *)
Lemma match_braces_cut (a mid b : text) :
  forallb not_brace a = true ->
  forallb not_brace b = true ->
  match_braces (a ++ (lbrace :: mid ++ [rbrace]) ++ b)
  = Some (lbrace :: mid ++ [rbrace]).
Proof.
  intros Ha Hb. unfold match_braces.
  cbn [app]. rewrite from_first_open_cut by exact Ha.
  rewrite <- app_assoc. cbn [app].
  rewrite upto_last_close_cut by exact Hb. reflexivity.
Qed.

(** Cleaning a text [{ ... }] with brace-free text around it: the wrapping
    and the payload are cleaned each on its own. *)
Lemma clean_wrapped (pre mid suf : text) :
  trim (strip_fences (pre ++ (lbrace :: mid ++ [rbrace]) ++ suf)) =
  trimStart (strip_fences pre)
  ++ (lbrace :: strip_fences mid ++ [rbrace])
  ++ trimEnd (strip_fences suf).
Proof.
  unfold strip_fences. cbn [app]. rewrite <- app_assoc. cbn [app].
  rewrite strip_from_cut by (reflexivity || lia).
  rewrite strip_from_cut by (reflexivity || lia).
  unfold trim.
  rewrite trimStart_cut by reflexivity.
  rewrite app_comm_cons, app_assoc.
  rewrite trimEnd_cut by reflexivity.
  rewrite <- !app_assoc. reflexivity.
Qed.

(** C4, counterexample.  Prose that itself contains braces: the brace match
    runs from the first brace of the prose to the last of the payload, does
    not parse, and the review is lost. *)
Lemma prose_with_braces_loses_reviews :
  reconciled great_review =
    VObject [(js "reviews",
      VArray [VObject [(js "title", VString (js "Great"));
                       (js "body", VString (js "Works well"));
                       (js "rating", VNumber (js "5"));
                       (js "reviewer", VString (js "A"))]])] /\
  reconciled (js "Here is the JSON {as requested}: " ++ great_review)
    = empty_reviews /\
  reconciled (js "Here is the JSON {as requested}: " ++ great_review)
    <> reconciled great_review.
Proof.
  split; [vm_compute; reflexivity |].
  split; [vm_compute; reflexivity |].
  vm_compute. discriminate.
Qed.

Lemma parse_rejects_first (c : N) (s : text) :
  can_start_json c = false -> parse (c :: s) = None.
Proof.
  unfold can_start_json. intros H.
  repeat (apply orb_false_elim in H as [H ?]).
  assert (H48 : (c =? 48) = false).
  { destruct (N.eqb_spec c 48) as [-> |]; [discriminate | reflexivity]. }
  unfold parse. cbn [run]. unfold step, is_json_space.
  repeat match goal with
         | Heq : _ = false |- _ => rewrite Heq; clear Heq
         end.
  destruct (c =? 93); reflexivity.
Qed.

(** C4, as amended.  Take a payload that begins with an opening and ends
    with a closing brace, and wrap it in text without braces.  If the
    wrapping is only code fences and white space, or if the text before the
    payload begins, once cleaned, with a code unit no JSON text begins with
    (prose such as [Here you go:]), or more generally if the wrapped text is
    not itself valid JSON once cleaned, then reconciling the wrapped text
    yields what reconciling the bare payload yields. *)
Theorem wrapped_payload_reconciles (pre mid suf : text) :
  let payload := lbrace :: mid ++ [rbrace] in
  let wrapped := pre ++ payload ++ suf in
  forallb not_brace pre = true ->
  forallb not_brace suf = true ->
  (trimStart (strip_fences pre) = [] /\ trimEnd (strip_fences suf) = []) \/
  (exists c rest, trimStart (strip_fences pre) = c :: rest /\
                  can_start_json c = false) \/
  parse (trim (strip_fences wrapped)) = None ->
  reconciled wrapped = reconciled payload.
Proof.
  intros payload wrapped Hpre Hsuf Hcase. subst payload wrapped.
  pose proof (clean_wrapped pre mid suf) as Hw.
  pose proof (clean_wrapped [] mid []) as Hp.
  cbn [app] in Hp. rewrite app_nil_r in Hp.
  change (trimStart (strip_fences [])) with (@nil N) in Hp.
  change (trimEnd (strip_fences [])) with (@nil N) in Hp.
  cbn [app] in Hp. rewrite app_nil_r in Hp.
  set (C := lbrace :: strip_fences mid ++ [rbrace]) in *.
  assert (HmC : match_braces C = Some C).
  { pose proof (match_braces_cut [] (strip_fences mid) [] eq_refl eq_refl) as H.
    cbn [app] in H. rewrite app_nil_r in H. exact H. }
  assert (Hbare : reconciled (lbrace :: mid ++ [rbrace])
                  = default empty_reviews (parse C)).
  { unfold reconciled. cbv zeta. rewrite Hp, HmC.
    destruct (parse C); reflexivity. }
  rewrite Hbare.
  assert (Hfallback :
    parse (trim (strip_fences (pre ++ (lbrace :: mid ++ [rbrace]) ++ suf))) = None ->
    reconciled (pre ++ (lbrace :: mid ++ [rbrace]) ++ suf)
    = default empty_reviews (parse C)).
  { intros Hfail. unfold reconciled. cbv zeta. rewrite Hfail, Hw.
    unfold C. rewrite match_braces_cut; [reflexivity | |].
    - apply trimStart_forallb, strip_from_forallb, Hpre.
    - apply trimEnd_forallb, strip_from_forallb, Hsuf. }
  destruct Hcase as [[Hpre0 Hsuf0] | [(c & rest & Hlead & Hc) | Hfail]].
  - unfold reconciled. cbv zeta. rewrite Hw, Hpre0, Hsuf0.
    cbn [app]. rewrite app_nil_r. rewrite HmC.
    destruct (parse C); reflexivity.
  - apply Hfallback. rewrite Hw, Hlead. cbn [app].
    apply parse_rejects_first, Hc.
  - apply Hfallback, Hfail.
Qed.

(** The scenario of the specification: the reply
    [Here you go:], a line break, the payload in a [json] fence. *)
Lemma wrapped_payload_reconciles_witness :
  reconciled (js "Here you go:" ++ [newline] ++ fence_json ++ [newline]
              ++ great_review ++ newline :: fence)
  = reconciled great_review.
Proof.
  refine (wrapped_payload_reconciles
            (js "Here you go:" ++ [newline] ++ fence_json ++ [newline])
            (removelast (tl great_review))
            (newline :: fence) _ _ _).
  - vm_compute. reflexivity.
  - vm_compute. reflexivity.
  - right. left. exists 72, (tl (js "Here you go:json") ++ [newline]).
    split; vm_compute; reflexivity.
Defined.

(** A fence alone, with no prose. *)
Example fenced_payload_reconciles :
  reconciled (fence_json ++ [newline] ++ great_review ++ newline :: fence)
  = reconciled great_review.
Proof. vm_compute. reflexivity. Qed.

(** *** The order of the frames *)

Lemma list_ascii_of_string_app (a c : string) :
  list_ascii_of_string (a +:+ c) = list_ascii_of_string a ++ list_ascii_of_string c.
Proof.
  induction a as [| x a IH]; [reflexivity |].
  change (String x a +:+ c) with (String x (a +:+ c)).
  cbn [list_ascii_of_string app]. rewrite IH. reflexivity.
Qed.

Lemma string_app_inv_tail (a b c : string) : a +:+ c = b +:+ c -> a = b.
Proof.
  intros H. apply (f_equal list_ascii_of_string) in H.
  rewrite !list_ascii_of_string_app in H. apply app_inv_tail in H.
  rewrite <- (string_of_list_ascii_of_string a), H.
  apply string_of_list_ascii_of_string.
Qed.

Lemma decimal_inj (i j : N) : decimal i = decimal j -> i = j.
Proof.
  unfold decimal. intros H.
  apply (f_equal NilEmpty.uint_of_string) in H.
  rewrite !NilEmpty.usu in H. injection H as H.
  rewrite <- (Unsigned.of_to i), H. apply Unsigned.of_to.
Qed.

(** The file name of a frame determines its index. *)
Lemma screenshot_file_inj (i j : N) :
  screenshot_file i = screenshot_file j -> i = j.
Proof.
  unfold screenshot_file. intros H.
  apply String.app_inj in H. apply string_app_inv_tail in H.
  apply decimal_inj, H.
Qed.

Lemma frames_log_lookup (bufs : list Buffer) :
  forall (i : N) (k : nat) (b : Buffer),
    bufs !! k = Some b ->
    let j := i + N.of_nat k in
    frames_log i bufs !! (4 * k)%nat
      = Some (Ext (page_evaluate_scrollTo (j * viewportHeight))) /\
    frames_log i bufs !! (4 * k + 1)%nat = Some (Ext (page_waitForTimeout 2000)) /\
    frames_log i bufs !! (4 * k + 2)%nat = Some (Ext (page_screenshot false)) /\
    frames_log i bufs !! (4 * k + 3)%nat
      = Some (fs_writeFile (screenshot_file j) (Binary b)).
Proof.
  induction bufs as [| b0 bufs IH]; intros i k b Hk; [discriminate |].
  destruct k as [| k].
  - injection Hk as ->. cbv zeta. rewrite N.add_0_r. repeat split.
  - cbn in Hk. specialize (IH (i + 1) k b Hk). cbv zeta in IH.
    replace (i + 1 + N.of_nat k) with (i + N.of_nat (S k)) in IH by lia.
    cbv zeta. cbn [frames_log frame_events app].
    replace (4 * S k)%nat with (S (S (S (S (4 * k))))) by lia.
    exact IH.
Qed.

Lemma frames_files_other (bufs : list Buffer) :
  forall (i : N) (d : gmap string FileData) (f : string),
    (forall j, i <= j -> f <> screenshot_file j) ->
    frames_files i bufs d !! f = d !! f.
Proof.
  induction bufs as [| b bufs IH]; intros i d f Hf; [reflexivity |].
  cbn [frames_files]. rewrite IH by (intros j Hj; apply Hf; lia).
  apply lookup_insert_ne. intros Heq. apply (Hf i); [lia | congruence].
Qed.

Lemma frames_files_lookup (bufs : list Buffer) :
  forall (i : N) (d : gmap string FileData) (k : nat) (b : Buffer),
    bufs !! k = Some b ->
    frames_files i bufs d !! screenshot_file (i + N.of_nat k) = Some (Binary b).
Proof.
  induction bufs as [| b0 bufs IH]; intros i d k b Hk; [discriminate |].
  destruct k as [| k]; cbn [frames_files].
  - injection Hk as ->. rewrite N.add_0_r.
    rewrite frames_files_other; [apply lookup_insert_eq |].
    intros j Hj Heq. apply screenshot_file_inj in Heq. lia.
  - cbn in Hk. replace (i + N.of_nat (S k)) with (i + 1 + N.of_nat k) by lia.
    apply IH, Hk.
Qed.

(** The [k]-th buffer of a loop is what the world shows after the calls
    made up to the screenshot of frame [k], that call included. *)
Lemma captured_lookup (w : World) (n : nat) :
  forall (h : list Call) (i : N) (k : nat) (b : Buffer),
    captured w h i n !! k = Some b ->
    b = screenshot w
          (h ++ calls_of (firstn (4 * k + 3) (frames_log i (captured w h i n)))).
Proof.
  induction n as [| n IH]; intros h i k b Hk; [discriminate |].
  cbn [captured] in *. cbv zeta in *.
  set (h' := h ++ [page_evaluate_scrollTo (i * viewportHeight);
                   page_waitForTimeout 2000; page_screenshot false]) in *.
  destruct k as [| k].
  - injection Hk as <-. reflexivity.
  - cbn in Hk. apply IH in Hk. rewrite Hk.
    replace (4 * S k + 3)%nat with (S (S (S (S (4 * k + 3))))) by lia.
    cbn [frames_log frame_events app firstn calls_of].
    unfold h'. rewrite <- app_assoc. reflexivity.
Qed.

(** C5. The loop handles the frames one after the other.  For every index
    [i] below the number of frames it scrolls to [i * 1000], waits 2000 ms,
    takes a screenshot of the viewport ([fullPage] is false), and writes it
    to [screenshot_<i>.png]; the image written is the buffer
    [page.screenshot] resolved to, that is, what the world shows after the
    calls made up to that screenshot, and its base64 encoding is the [i]-th
    element of the list the loop returns.  These four events of frame [i]
    stand in the log at positions [4 i] to [4 i + 3] after the start of the
    loop, and the loop adds no other event, so the frames are handled by
    increasing offset and frame [i] is written before frame [i + 1] is
    begun.  The file name determines [i].  With a browser that does not
    reject and an existing directory the loop does return. *)
Theorem capture_sequence (w : World) (n : nat) (s : State) :
  (browser_ok w -> is_Some (dir s) ->
   exists imgs s', captureFrames w n 0 [] s = (Return imgs, s')) /\
  (forall imgs s',
     captureFrames w n 0 [] s = (Return imgs, s') ->
     let bufs := captured w (calls_of (log s)) 0 n in
     length bufs = n /\ length imgs = n /\
     log s' = log s ++ frames_log 0 bufs /\
     imgs = map toString_base64 bufs /\
     forall k : nat, (k < n)%nat ->
       let i := N.of_nat k in
       let at_ (j : nat) := log s' !! (length (log s) + (4 * k + j))%nat in
       let made := calls_of (firstn (length (log s) + (4 * k + 3)) (log s')) in
       let b := screenshot w made in
       at_ 0%nat = Some (Ext (page_evaluate_scrollTo (i * viewportHeight))) /\
       at_ 1%nat = Some (Ext (page_waitForTimeout 2000)) /\
       at_ 2%nat = Some (Ext (page_screenshot false)) /\
       at_ 3%nat = Some (fs_writeFile (screenshot_file i) (Binary b)) /\
       bufs !! k = Some b /\
       imgs !! k = Some (toString_base64 b) /\
       (dir s' ≫= fun d => d !! screenshot_file i) = Some (Binary b)) /\
  (forall i j, screenshot_file i = screenshot_file j -> i = j).
Proof.
  split; [intros Hok Hdir; apply captureFrames_browser_ok; assumption |].
  split; [| apply screenshot_file_inj].
  intros imgs s' Hrun.
  apply captureFrames_returns in Hrun
    as (bufs & Hlen & Himgs & Hlog & Hdir & Hsome & Hbufs).
  cbn [app] in Himgs. cbv zeta. rewrite <- Hbufs.
  split; [exact Hlen |].
  split; [rewrite Himgs, length_map; exact Hlen |].
  split; [exact Hlog |]. split; [exact Himgs |].
  intros k Hlt.
  destruct (lookup_lt_is_Some_2 bufs k ltac:(lia)) as [b Hk].
  assert (Hb : screenshot w
                 (calls_of (firstn (length (log s) + (4 * k + 3)) (log s'))) = b).
  { rewrite Hlog, List.firstn_app_2, calls_of_app. symmetry.
    rewrite Hbufs in Hk |- *. apply captured_lookup, Hk. }
  rewrite Hb.
  destruct (frames_log_lookup bufs 0 k b Hk) as (H0 & H1 & H2 & H3).
  cbv zeta in H0, H1, H2, H3. rewrite N.add_0_l in H0, H3.
  rewrite Hlog, !lookup_app_r by lia.
  replace (length (log s) + (4 * k + 0) - length (log s))%nat with (4 * k)%nat by lia.
  replace (length (log s) + (4 * k + 1) - length (log s))%nat with (4 * k + 1)%nat by lia.
  replace (length (log s) + (4 * k + 2) - length (log s))%nat with (4 * k + 2)%nat by lia.
  replace (length (log s) + (4 * k + 3) - length (log s))%nat with (4 * k + 3)%nat by lia.
  repeat (split; [assumption |]).
  split.
  - rewrite Himgs, list_lookup_fmap, Hk. reflexivity.
  - rewrite Hdir.
    destruct Hsome as [d Hd].
    { intros ->. destruct bufs; discriminate. }
    rewrite Hd. cbn.
    pose proof (frames_files_lookup bufs 0 d k b Hk) as Hf.
    rewrite N.add_0_l in Hf. exact Hf.
Qed.

(** Three frames: the third, of index 2, is taken at offset 2000, and the
    file written for it holds the bytes of the screenshot. *)
Lemma capture_sequence_witness :
  exists imgs s',
    captureFrames (replying 2500 great_review) 3 0 [] (mkState (Some ∅) [])
      = (Return imgs, s') /\
    length imgs = 3%nat /\
    log s' !! 8%nat = Some (Ext (page_evaluate_scrollTo 2000)) /\
    log s' !! 11%nat = Some (fs_writeFile "screenshot_2.png" (Binary png)) /\
    imgs !! 2%nat = Some (toString_base64 png).
Proof.
  destruct (capture_sequence (replying 2500 great_review) 3 (mkState (Some ∅) []))
    as (Hreturns & Hsequence & _).
  destruct Hreturns as (imgs & s' & Hrun).
  - intros h c _. reflexivity.
  - cbn. eauto.
  - exists imgs, s'. split; [exact Hrun |].
    destruct (Hsequence imgs s' Hrun) as (_ & Hlen' & _ & _ & Hframes).
    split; [exact Hlen' |].
    destruct (Hframes 2%nat ltac:(lia)) as (Hscroll & _ & _ & Hwrite & _ & Himg & _).
    split; [exact Hscroll |]. split; [exact Hwrite | exact Himg].
Defined.

(** *** Closing the browser *)

(** Once the browser and the page are open, [browser.close()] is called at
    the very end of every run, and only there. *)
Lemma browser_closed_once_after_newPage (w : World) (url : string) (s : State) :
  fault w (calls_of (log s)) chromium_launch = None ->
  fault w (calls_of (log s) ++ [chromium_launch]) browser_newPage = None ->
  exists evs : list Event,
    log (snd (extractReviews w url s)) =
      log s ++ [Ext chromium_launch; Ext browser_newPage] ++ evs
            ++ [Ext browser_close] /\
    Forall (fun e => is_close e = false) evs.
Proof.
  intros Hlaunch Hpage. unfold extractReviews.
  rewrite await_then_ok by exact Hlaunch.
  rewrite await_then_ok by (norm_calls; exact Hpage).
  rewrite try_finally_close, rethrow_run. cbn [snd log].
  edestruct (appends_extractReviews_body (fun e => is_close e = false))
    as (evs & Hlog & Hall); [| | rewrite Hlog].
  - intros e He. destruct e; try reflexivity. discriminate.
  - intros c Hc _ _. destruct c; try reflexivity. congruence.
  - exists evs. split; [| exact Hall].
    cbn [log]. rewrite <- !app_assoc. reflexivity.
Qed.

(** C6, at the failing input.  The browser launches and [browser.newPage()]
    rejects.  Both calls stand before the [try] of line 140, so the [finally]
    of line 208 does not run: the run ends with the browser launched and
    never closed, and the handler answers 500. *)
Theorem newPage_failure_leaks_browser :
  let w := failing_at is_newPage page_crashed 2500 in
  let run := api_reviews w (Some shop) fresh_start in
  fst (extractReviews w shop fresh_start) = Throw page_crashed /\
  log (snd run) = [Ext chromium_launch; Ext browser_newPage] /\
  filter (fun e => is_close e) (log (snd run)) = [] /\
  fst run = Return (server_error page_crashed).
Proof. cbv zeta. repeat split; vm_compute; reflexivity. Qed.

(** *** The working directory *)

















Example stale_frames_are_removed :
  let run := extractReviews (replying 1800 great_review) shop
               (mkState (Some stale_directory) []) in
  (dir (snd run) ≫= fun d => d !! screenshot_file 1) = Some (Binary png) /\
  (dir (snd run) ≫= fun d => d !! screenshot_file 2) = None /\
  (dir (snd run) ≫= fun d => d !! error_file) = None /\
  (size <$> dir (snd run)) = Some 2%nat.
Proof. cbv zeta. repeat split; vm_compute; reflexivity. Qed.

(* ===================================================================== *)
(** ** Further properties of the code *)
(* ===================================================================== *)

(** *** The offsets of the frames *)

(** Every frame of index below [numScreenshots] starts inside the page, and
    every line of the page lies in the frame of index [y / 1000]. *)
Lemma frames_arith (w : World) :
  let h := Math_max (dom w) in
  let n := numScreenshots w in
  (forall i, i < n -> i * viewportHeight < h) /\
  (forall y, y < h ->
     y / viewportHeight < n /\
     (y / viewportHeight) * viewportHeight <= y
       < (y / viewportHeight + 1) * viewportHeight).
Proof.
  cbv zeta. unfold numScreenshots.
  destruct (Math_ceil_div_spec (Math_max (dom w)) viewportHeight eq_refl)
    as [Hup Hleast].
  set (h := Math_max (dom w)) in *.
  set (n := Math_ceil_div h viewportHeight) in *.
  split.
  - intros i Hi. destruct (N.lt_ge_cases (i * viewportHeight) h) as [? | Hge];
      [assumption |].
    specialize (Hleast i Hge). lia.
  - intros y Hy.
    pose proof (N.div_mod y viewportHeight ltac:(discriminate)) as Hdm.
    pose proof (N.mod_lt y viewportHeight ltac:(discriminate)) as Hlt.
    set (q := y / viewportHeight) in *. set (r := y mod viewportHeight) in *.
    rewrite (N.mul_comm viewportHeight q) in Hdm.
    split; [| lia].
    destruct (N.lt_ge_cases q n) as [? | Hge]; [assumption |].
    exfalso. apply (N.mul_le_mono_r _ _ viewportHeight) in Hge. lia.
Qed.

Lemma In_Ext_map (c : Call) (cs : list Call) : In (Ext c) (map Ext cs) -> In c cs.
Proof.
  intros H. apply in_map_iff in H as (c' & [= ->] & Hin). exact Hin.
Qed.

Lemma In_firstn {A} (x : A) (k : nat) (l : list A) : In x (firstn k l) -> In x l.
Proof.
  revert k. induction l as [| y l IH]; intros [| k] H; cbn in *; try tauto.
  destruct H as [H | H]; [auto | right; eapply IH, H].
Qed.

Lemma no_call_without_calls (evs : list Event) (c : Call) :
  calls_of evs = [] -> ~ In (Ext c) evs.
Proof.
  induction evs as [| e evs IH]; intros Hc [].
  - subst e. discriminate.
  - destruct e; try discriminate; apply IH; assumption.
Qed.

Lemma frames_log_scroll (bufs : list Buffer) :
  forall (i o : N),
    In (Ext (page_evaluate_scrollTo o)) (frames_log i bufs) ->
    exists k, (k < length bufs)%nat /\ o = (i + N.of_nat k) * viewportHeight.
Proof.
  induction bufs as [| b bufs IH]; intros i o Hin; [destruct Hin |].
  cbn [frames_log frame_events app In] in Hin.
  destruct Hin as [[= <-] | [[=] | [[=] | [[=] | Hin]]]].
  - exists 0%nat. cbn. split; [lia |]. rewrite N.add_0_r. reflexivity.
  - apply IH in Hin as (k & Hk & ->). exists (S k). cbn. split; [lia |].
    f_equal. lia.
Qed.

(** The scrolls of a run, apart from the one to the bottom of the page, are
    those of its frames. *)
Lemma scrolls_of_run (w : World) (url : string) (s : State) (evs : list Event) (o : N) :
  log (snd (extractReviews w url s)) = log s ++ evs ->
  In (Ext (page_evaluate_scrollTo o)) evs ->
  exists i, i < numScreenshots w /\ o = i * viewportHeight.
Proof.
  intros Hevs Hin.
  assert (Hrender : ~ In (page_evaluate_scrollTo o) (opening_calls ++ render_calls url)).
  { cbn. intros H. repeat (destruct H as [H | H]; [discriminate |]). exact H. }
  assert (Hframes : forall bufs : list Buffer,
            (length bufs <= N.to_nat (numScreenshots w))%nat ->
            In (Ext (page_evaluate_scrollTo o)) (frames_log 0 bufs) ->
            exists i, i < numScreenshots w /\ o = i * viewportHeight).
  { intros bufs Hlen H. apply frames_log_scroll in H as (k & Hk & ->).
    exists (N.of_nat k). split; [lia | reflexivity]. }
  destruct (extractReviews_shape w url s)
    as [(e & k & _ & _ & _ & Hlog & _)
       | [(e & k & _ & _ & _ & Hlog & _)
         | [(e & fsevs & bufs & k & Hlen & _ & Hclearing & _ & _ & _ & Hlog & _)
           | (fsevs & bufs & Hlen & Hclearing & _ & H)]]].
  - rewrite Hlog in Hevs. apply app_inv_head in Hevs. subst evs. exfalso.
    apply In_Ext_map, In_firstn in Hin. apply Hrender, in_or_app. auto.
  - rewrite Hlog in Hevs. apply app_inv_head in Hevs. subst evs. exfalso.
    apply In_Ext_map in Hin.
    apply in_app_or in Hin as [Hin | Hin];
      [apply Hrender, in_or_app; auto |].
    apply in_app_or in Hin as [Hin | [[=] | []]].
    apply In_firstn in Hin. apply Hrender, in_or_app. auto.
  - rewrite Hlog in Hevs. apply app_inv_head in Hevs. subst evs.
    apply in_app_or in Hin as [Hin | Hin];
      [exfalso; apply In_Ext_map in Hin; exact (Hrender Hin) |].
    apply in_app_or in Hin as [Hin | Hin];
      [exfalso; revert Hin; apply no_call_without_calls, is_clearing_calls, Hclearing |].
    apply in_app_or in Hin as [Hin | Hin]; [apply (Hframes bufs); [lia | exact Hin] |].
    apply in_app_or in Hin as [Hin | [[=] | []]].
    apply In_firstn in Hin. cbn [frame_calls In] in Hin.
    destruct Hin as [[= <-] | [[=] | [[=] | []]]].
    exists (N.of_nat (length bufs)). split; [lia | reflexivity].
  - cbv zeta in H. destruct H as (_ & Hlog & _).
    match type of Hlog with
    | context [analyse w ?imgs ?s1] =>
        destruct (analyse_log w imgs s1) as (tail & Htail & Hcalls)
    end.
    rewrite Hlog, Htail in Hevs. cbn [log] in Hevs.
    rewrite <- !app_assoc in Hevs. apply app_inv_head in Hevs. subst evs.
    apply in_app_or in Hin as [Hin | Hin];
      [exfalso; apply In_Ext_map in Hin; exact (Hrender Hin) |].
    apply in_app_or in Hin as [Hin | Hin];
      [exfalso; revert Hin; apply no_call_without_calls, is_clearing_calls, Hclearing |].
    apply in_app_or in Hin as [Hin | Hin]; [apply (Hframes bufs); [lia | exact Hin] |].
    cbn [app In] in Hin. destruct Hin as [[=] | Hin].
    apply in_app_or in Hin as [Hin | [[=] | []]].
    exfalso. revert Hin. apply no_call_without_calls, Hcalls.
Qed.

(** The frames of a run that returns. *)
Lemma frames_of_returning_run (w : World) (url : string) (s : State)
  (evs : list Event) (r : Result) :
  log (snd (extractReviews w url s)) = log s ++ evs ->
  fst (extractReviews w url s) = Return r ->
  exists (bufs : list Buffer) (pre post : list Event),
    length bufs = N.to_nat (numScreenshots w) /\
    evs = pre ++ frames_log 0 bufs ++ post.
Proof.
  intros Hevs Hret.
  destruct (extractReviews_shape w url s)
    as [(e & k & _ & Hthrow & _)
       | [(e & k & _ & Hthrow & _)
         | [(e & fsevs & bufs & k & _ & _ & _ & _ & Hthrow & _)
           | (fsevs & bufs & Hlen & _ & _ & H)]]];
    try (rewrite Hthrow in Hret; discriminate).
  cbv zeta in H. destruct H as (_ & Hlog & _).
  match type of Hlog with
  | context [analyse w ?imgs ?s1] =>
      destruct (analyse_log w imgs s1) as (tail & Htail & _)
  end.
  rewrite Hlog, Htail in Hevs. cbn [log] in Hevs.
  rewrite <- !app_assoc in Hevs. apply app_inv_head in Hevs.
  exists bufs, (map Ext (opening_calls ++ render_calls url) ++ fsevs).
  eexists. split; [exact Hlen |]. rewrite <- Hevs, <- !app_assoc. reflexivity.
Qed.

(** X1. The frames of a run tile the page (lines 169 and 178-181), in any
    world.  Every scroll of the capture loop that a run makes goes to a
    multiple of 1000 that lies inside the page, so no frame is taken beyond
    its end; and when the run returns, every line [y] of the page lies in
    a frame the run scrolled to, captured and wrote to its file. *)
Theorem frames_tile_page
  (w : World) (url : string) (s : State) (evs : list Event) :
  log (snd (extractReviews w url s)) = log s ++ evs ->
  let h := Math_max (dom w) in
  (forall o, In (Ext (page_evaluate_scrollTo o)) evs ->
     o < h /\ o mod viewportHeight = 0) /\
  (forall r, fst (extractReviews w url s) = Return r ->
     forall y, y < h ->
       exists (o : N) (b : Buffer),
         o <= y < o + viewportHeight /\
         In (Ext (page_evaluate_scrollTo o)) evs /\
         In (fs_writeFile (screenshot_file (o / viewportHeight)) (Binary b)) evs).
Proof.
  intros Hevs h. destruct (frames_arith w) as [Hinside Hline]. cbv zeta in *.
  split.
  - intros o Hin.
    destruct (scrolls_of_run w url s evs o Hevs Hin) as (i & Hi & ->).
    split; [apply Hinside, Hi | apply N.Div0.mod_mul].
  - intros r Hret y Hy.
    destruct (frames_of_returning_run w url s evs r Hevs Hret)
      as (bufs & pre & post & Hlen & ->).
    destruct (Hline y Hy) as [Hq Hbounds].
    set (q := y / viewportHeight) in *.
    destruct (lookup_lt_is_Some_2 bufs (N.to_nat q) ltac:(lia)) as [b Hb].
    destruct (frames_log_lookup bufs 0 (N.to_nat q) b Hb) as (Hscroll & _ & _ & Hwrite).
    cbv zeta in Hscroll, Hwrite.
    rewrite N.add_0_l, N2Nat.id in Hscroll, Hwrite.
    exists (q * viewportHeight), b.
    split; [lia |].
    rewrite N.div_mul by discriminate.
    split; apply in_or_app; right; apply in_or_app; left;
      eapply list_elem_of_In, list_elem_of_lookup_2; eassumption.
Qed.

(** A page 2500 high: line 2499 lies in the frame at offset 2000, which the
    run captured. *)
Lemma frames_tile_page_witness :
  exists (o : N) (b : Buffer),
    o <= 2499 < o + viewportHeight /\
    In (Ext (page_evaluate_scrollTo o))
       (log (snd (extractReviews (replying 2500 great_review) shop fresh_start))) /\
    In (fs_writeFile (screenshot_file (o / viewportHeight)) (Binary b))
       (log (snd (extractReviews (replying 2500 great_review) shop fresh_start))).
Proof.
  set (w := replying 2500 great_review).
  destruct (frames_tile_page w shop fresh_start
              (log (snd (extractReviews w shop fresh_start))) eq_refl)
    as [_ Hcovered].
  apply (Hcovered
           {| reviews := [VObject [(js "title", VString (js "Great"));
                                   (js "body", VString (js "Works well"));
                                   (js "rating", VNumber (js "5"));
                                   (js "reviewer", VString (js "A"))]];
              errorDetails := None |}).
  - vm_compute. reflexivity.
  - reflexivity.
Defined.

(** *** Clearing on its own *)



(** *** Launching and closing the browser *)

(** X4. [browser.close()] is called exactly when both [chromium.launch()]
    and [browser.newPage()] have resolved (lines 134-135 and 208-210), then
    exactly once and as the last call of the run.  When either rejects, the
    run makes no further call at all. *)
Theorem close_called_iff_page_opened (w : World) (url : string) (s : State) :
  let h := calls_of (log s) in
  exists evs : list Event,
    log (snd (extractReviews w url s)) = log s ++ evs /\
    match fault w h chromium_launch, fault w (h ++ [chromium_launch]) browser_newPage with
    | None, None =>
        List.filter is_close evs = [Ext browser_close] /\
        exists evs', evs = evs' ++ [Ext browser_close]
    | Some e, _ =>
        evs = [Ext chromium_launch] /\ fst (extractReviews w url s) = Throw e
    | None, Some e =>
        evs = [Ext chromium_launch; Ext browser_newPage] /\
        fst (extractReviews w url s) = Throw e
    end.
Proof.
  cbv zeta.
  destruct (fault w (calls_of (log s)) chromium_launch) as [e |] eqn:Hlaunch.
  { exists [Ext chromium_launch]. unfold extractReviews.
    rewrite await_then_fault with (e := e) by exact Hlaunch. auto. }
  destruct (fault w (calls_of (log s) ++ [chromium_launch]) browser_newPage)
    as [e |] eqn:Hpage.
  { exists [Ext chromium_launch; Ext browser_newPage]. unfold extractReviews.
    rewrite await_then_ok by exact Hlaunch.
    rewrite await_then_fault with (e := e) by (norm_calls; exact Hpage).
    cbn [fst snd log]. rewrite <- app_assoc. auto. }
  destruct (browser_closed_once_after_newPage w url s Hlaunch Hpage)
    as (evs0 & Hlog & Hnone).
  exists ([Ext chromium_launch; Ext browser_newPage] ++ evs0 ++ [Ext browser_close]).
  split; [exact Hlog |]. split.
  - rewrite !List.filter_app. cbn.
    replace (List.filter is_close evs0) with (@nil Event); [reflexivity |].
    clear -Hnone. induction Hnone as [| e evs He _ IH]; [reflexivity |].
    cbn. rewrite He. exact IH.
  - eexists. rewrite app_assoc. reflexivity.
Qed.

(** *** When the provider is called *)

Lemma no_provider_call_in_browser_calls (cs : list Call) :
  forallb on_browser cs = true ->
  List.filter is_provider_call (map Ext cs) = [].
Proof.
  induction cs as [| c cs IH]; [reflexivity |].
  cbn [forallb]. intros H. apply andb_prop in H as [Hc Hcs].
  cbn [map List.filter]. destruct c; try discriminate; cbn; auto.
Qed.

Lemma forallb_firstn {A} (P : A -> bool) (k : nat) (l : list A) :
  forallb P l = true -> forallb P (firstn k l) = true.
Proof.
  revert k. induction l as [| x l IH]; intros k H; [destruct k; reflexivity |].
  destruct k; [reflexivity |].
  cbn in *. apply andb_prop in H as [Hx Hl]. rewrite Hx. apply IH, Hl.
Qed.

Lemma no_provider_call_without_calls (evs : list Event) :
  calls_of evs = [] -> List.filter is_provider_call evs = [].
Proof.
  induction evs as [| e evs IH]; [reflexivity |].
  destruct e; cbn; try discriminate; exact IH.
Qed.

Lemma no_provider_call_in_frames (bufs : list Buffer) :
  forall i, List.filter is_provider_call (frames_log i bufs) = [].
Proof.
  induction bufs as [| b bufs IH]; intros i; [reflexivity |].
  cbn. apply IH.
Qed.

Lemma no_provider_call_in_frame_calls (k : nat) (i : N) :
  List.filter is_provider_call (firstn k (frame_calls i)) = [].
Proof. destruct k as [| [| [| [| k]]]]; reflexivity. Qed.

(** X5. The provider is called at most once in a run, and only after every
    one of the [numScreenshots] frames has been captured and written (lines
    178-194): either a run makes no call on the provider, or its events are
    some events without such a call, then the events of all the frames, then
    the one call, with the images of exactly these frames, then events
    without such a call. *)
Theorem provider_called_after_all_frames (w : World) (url : string) (s : State) :
  exists evs : list Event,
    log (snd (extractReviews w url s)) = log s ++ evs /\
    (List.filter is_provider_call evs = [] \/
     exists (before after : list Event) (bufs : list Buffer),
       evs = before ++ frames_log 0 bufs
                    ++ Ext (provider_call (map toString_base64 bufs)) :: after /\
       length bufs = N.to_nat (numScreenshots w) /\
       List.filter is_provider_call before = [] /\
       List.filter is_provider_call after = [] /\
       List.filter is_provider_call evs
         = [Ext (provider_call (map toString_base64 bufs))]).
Proof.
  destruct (extractReviews_shape w url s)
    as [(e & k & _ & _ & _ & Hlog & _)
       | [(e & k & _ & _ & _ & Hlog & _)
         | [(e & fsevs & bufs & k & _ & _ & Hclearing & _ & _ & _ & Hlog & _)
           | (fsevs & bufs & Hlen & Hclearing & _ & H)]]].
  - eexists. split; [exact Hlog |]. left.
    apply no_provider_call_in_browser_calls, forallb_firstn. reflexivity.
  - eexists. split; [exact Hlog |]. left.
    apply no_provider_call_in_browser_calls.
    rewrite !forallb_app, (forallb_firstn on_browser (S k) (render_calls url) eq_refl).
    reflexivity.
  - eexists. split; [exact Hlog |]. left.
    rewrite !List.filter_app.
    rewrite no_provider_call_in_browser_calls by reflexivity.
    rewrite (no_provider_call_without_calls fsevs) by (apply is_clearing_calls, Hclearing).
    rewrite no_provider_call_in_frames, no_provider_call_in_frame_calls.
    reflexivity.
  - cbv zeta in H. destruct H as (_ & Hlog & _).
    match type of Hlog with
    | context [analyse w ?imgs ?s1] =>
        destruct (analyse_log w imgs s1) as (tail & Htail & Hcalls)
    end.
    rewrite Htail in Hlog. cbn [log] in Hlog.
    exists (map Ext (opening_calls ++ render_calls url) ++ fsevs ++ frames_log 0 bufs
            ++ Ext (provider_call (map toString_base64 bufs)) :: tail
            ++ [Ext browser_close]).
    split; [rewrite Hlog, <- !app_assoc; reflexivity |].
    right.
    exists (map Ext (opening_calls ++ render_calls url) ++ fsevs),
           (tail ++ [Ext browser_close]), bufs.
    assert (Hbefore : List.filter is_provider_call
                        (map Ext (opening_calls ++ render_calls url) ++ fsevs) = []).
    { rewrite List.filter_app.
      rewrite no_provider_call_in_browser_calls by reflexivity.
      rewrite (no_provider_call_without_calls fsevs)
        by (apply is_clearing_calls, Hclearing).
      reflexivity. }
    assert (Hafter : List.filter is_provider_call (tail ++ [Ext browser_close]) = []).
    { rewrite List.filter_app, (no_provider_call_without_calls tail Hcalls).
      reflexivity. }
    split; [rewrite <- !app_assoc; reflexivity |].
    split; [exact Hlen |]. split; [exact Hbefore |]. split; [exact Hafter |].
    rewrite (app_assoc (map Ext _) fsevs).
    rewrite (List.filter_app _ (_ ++ fsevs)), Hbefore.
    rewrite (List.filter_app _ (frames_log 0 bufs)), no_provider_call_in_frames.
    cbn [app List.filter is_provider_call provider_call].
    rewrite Hafter. reflexivity.
Qed.

(** *** What a run leaves in the directory *)

Lemma error_file_not_frame (i : N) : screenshot_file i <> error_file.
Proof.
  unfold screenshot_file, error_file. intros H.
  apply (f_equal (String.get 0)) in H. vm_compute in H. discriminate.
Qed.





(** *** What the parser can return *)

Lemma complete_defined (v : value) (stack : list frame) (ps : pstate) :
  is_defined v = true -> complete v stack = Some ps -> mode_defined (fst ps) = true.
Proof.
  intros Hv. unfold complete.
  destruct stack as [| [es | ms [k |]] st]; intros [= <-]; cbn; auto.
Qed.

Lemma step_after_defined (m : mode) (stack : list frame) (c : N) (ps : pstate) :
  mode_defined m = true -> step_after m stack c = Some ps ->
  mode_defined (fst ps) = true.
Proof.
  intros Hm. unfold step_after, close_array, close_object.
  destruct m; try discriminate.
  - destruct (is_json_space c); [intros [= <-]; reflexivity |].
    destruct (c =? 44).
    { destruct stack as [| [es | ms [k |]] st]; intros [= <-]; reflexivity. }
    destruct (c =? 93).
    { destruct stack as [| [es | ms k] st]; try discriminate.
      apply complete_defined. reflexivity. }
    destruct (c =? 125); [| discriminate].
    destruct stack as [| [es | ms [k |]] st]; try discriminate.
    apply complete_defined. reflexivity.
  - destruct (is_json_space c); [intros [= <-]; exact Hm | discriminate].
Qed.

Lemma step_defined (ps ps' : pstate) (c : N) :
  mode_defined (fst ps) = true -> step ps c = Some ps' ->
  mode_defined (fst ps') = true.
Proof.
  destruct ps as [m stack]. cbn [fst]. intros Hm.
  unfold step. destruct m.
  - repeat match goal with
           | |- (if ?b then _ else _) = Some _ -> _ => destruct b
           end;
      try discriminate; try (intros [= <-]; reflexivity).
    + unfold close_array. destruct stack as [| [es | ms k] st]; try discriminate.
      apply complete_defined. reflexivity.
  - repeat match goal with
           | |- (if ?b then _ else _) = Some _ -> _ => destruct b
           end;
      try discriminate; try (intros [= <-]; reflexivity).
    unfold close_object. destruct stack as [| [es | ms [k |]] st]; try discriminate.
    apply complete_defined. reflexivity.
  - repeat match goal with
           | |- (if ?b then _ else _) = Some _ -> _ => destruct b
           end;
      try discriminate; intros [= <-]; reflexivity.
  - apply step_after_defined. reflexivity.
  - apply step_after_defined. exact Hm.
  - repeat match goal with
           | |- (if ?b then _ else _) = Some _ -> _ => destruct b
           end;
      try discriminate; try (intros [= <-]; reflexivity).
    unfold end_string. destruct is_key.
    + destruct stack as [| [es | ms [k |]] st]; try discriminate.
      intros [= <-]. reflexivity.
    + apply complete_defined. reflexivity.
  - repeat match goal with
           | |- (if ?b then _ else _) = Some _ -> _ => destruct b
           end;
      try discriminate; intros [= <-]; reflexivity.
  - destruct (hex_value c); [| discriminate].
    destruct digits as [| d1 [| d2 [| d3 [| d4 ds]]]]; intros [= <-]; reflexivity.
  - destruct (num_step st c); [intros [= <-]; reflexivity |].
    destruct (num_final st); [| discriminate].
    destruct (complete (VNumber (rev acc_rev)) stack) as [[m' stack'] |] eqn:Hc;
      [| discriminate].
    apply step_after_defined.
    apply (complete_defined (VNumber (rev acc_rev)) stack (m', stack') eq_refl Hc).
  - destruct rest as [| r rest]; [discriminate |].
    destruct (c =? r); [| discriminate].
    destruct rest.
    + apply complete_defined. exact Hm.
    + intros [= <-]. exact Hm.
Qed.

Lemma run_defined (s : text) :
  forall ps ps', mode_defined (fst ps) = true -> run ps s = Some ps' ->
                 mode_defined (fst ps') = true.
Proof.
  induction s as [| c s IH]; intros ps ps' Hps; cbn [run].
  - intros [= <-]. exact Hps.
  - destruct (step ps c) as [ps1 |] eqn:Hstep; [| discriminate].
    apply IH. exact (step_defined _ _ _ Hps Hstep).
Qed.

(** [JSON.parse] never yields [undefined]. *)
Lemma parse_defined (s : text) (v : value) : parse s = Some v -> is_defined v = true.
Proof.
  unfold parse. destruct (run (MValue false, []) s) as [[m stack] |] eqn:Hrun;
    [| discriminate].
  apply run_defined in Hrun; [| reflexivity]. cbn [fst] in Hrun.
  unfold finish. destruct m; try discriminate.
  - destruct stack; [| discriminate]. intros [= <-]. exact Hrun.
  - destruct stack; [| discriminate].
    destruct (num_final st); [| discriminate]. intros [= <-]. reflexivity.
Qed.

Lemma rooted_stack_rooted (m : mode) (stack : list frame) :
  rooted_stack stack = true -> rooted_in_object (m, stack) = true.
Proof.
  unfold rooted_stack, rooted_in_object. cbn [fst snd].
  destruct (last stack) as [[es | ms k] |]; auto; discriminate.
Qed.

Lemma rooted_stack_push (f : frame) (stack : list frame) :
  rooted_stack stack = true -> rooted_stack (f :: stack) = true.
Proof. destruct stack; [discriminate | auto]. Qed.

Lemma complete_rooted (v : value) (stack : list frame) (ps : pstate) :
  rooted_stack stack = true -> complete v stack = Some ps ->
  rooted_stack (snd ps) = true.
Proof.
  unfold complete.
  destruct stack as [| [es | ms [k |]] [| g st]]; try discriminate;
    intros H [= <-]; exact H.
Qed.

Lemma close_array_rooted (stack : list frame) (ps : pstate) :
  rooted_stack stack = true -> close_array stack = Some ps ->
  rooted_stack (snd ps) = true.
Proof.
  unfold close_array. destruct stack as [| [es | ms k] [| g st]]; try discriminate.
  intros H. apply complete_rooted. exact H.
Qed.

Lemma close_object_rooted (stack : list frame) (ps : pstate) :
  rooted_stack stack = true -> close_object stack = Some ps ->
  rooted_in_object ps = true.
Proof.
  unfold close_object. destruct stack as [| [es | ms [k |]] [| g st]]; try discriminate.
  - intros _ [= <-]. reflexivity.
  - intros H Hc. destruct ps as [m' stack'].
    apply rooted_stack_rooted.
    exact (complete_rooted (VObject (rev ms)) (g :: st) (m', stack') H Hc).
Qed.

Lemma step_after_rooted (m : mode) (stack : list frame) (c : N) (ps : pstate) :
  rooted_in_object (m, stack) = true -> step_after m stack c = Some ps ->
  rooted_in_object ps = true.
Proof.
  intros Hm. unfold step_after. destruct m; try discriminate.
  - assert (Hs : rooted_stack stack = true).
    { unfold rooted_in_object, rooted_stack in *. cbn [fst snd] in Hm.
      destruct (last stack) as [[es | ms k] |]; auto. }
    destruct (is_json_space c); [intros [= <-]; exact Hm |].
    destruct (c =? 44).
    { destruct stack as [| [es | ms [k |]] st]; intros [= <-]; exact Hm. }
    destruct (c =? 93).
    { intros Hc. destruct ps as [m' stack'].
      apply rooted_stack_rooted. exact (close_array_rooted _ _ Hs Hc). }
    destruct (c =? 125); [| discriminate].
    apply close_object_rooted, Hs.
  - destruct (is_json_space c); [intros [= <-]; exact Hm | discriminate].
Qed.

Lemma step_rooted (ps ps' : pstate) (c : N) :
  rooted_in_object ps = true -> step ps c = Some ps' ->
  rooted_in_object ps' = true.
Proof.
  destruct ps as [m stack]. intros Hm.
  destruct (match m with MAfter | MDone _ => true | _ => false end) eqn:Hafter.
  { destruct m; try discriminate; apply step_after_rooted; exact Hm. }
  assert (Hs : rooted_stack stack = true).
  { unfold rooted_in_object, rooted_stack in *. cbn [fst snd] in Hm.
    destruct (last stack) as [[es | ms k] |]; auto.
    destruct m; discriminate. }
  clear Hm. unfold step. destruct m; try discriminate.
  - repeat match goal with
           | |- (if ?b then _ else _) = Some _ -> _ => destruct b
           end;
      try discriminate;
      try (intros [= <-]; apply rooted_stack_rooted; try exact Hs;
           apply rooted_stack_push, Hs).
    intros Hc. destruct ps' as [m' stack'].
    apply rooted_stack_rooted. exact (close_array_rooted _ _ Hs Hc).
  - repeat match goal with
           | |- (if ?b then _ else _) = Some _ -> _ => destruct b
           end;
      try discriminate;
      try (intros [= <-]; apply rooted_stack_rooted; exact Hs).
    apply close_object_rooted, Hs.
  - repeat match goal with
           | |- (if ?b then _ else _) = Some _ -> _ => destruct b
           end;
      try discriminate; intros [= <-]; apply rooted_stack_rooted; exact Hs.
  - repeat match goal with
           | |- (if ?b then _ else _) = Some _ -> _ => destruct b
           end;
      try discriminate;
      try (intros [= <-]; apply rooted_stack_rooted; exact Hs).
    unfold end_string. destruct is_key.
    + destruct stack as [| [es | ms [k |]] [| g st]]; try discriminate;
        intros [= <-]; apply rooted_stack_rooted; exact Hs.
    + intros Hc. destruct ps' as [m' stack'].
      apply rooted_stack_rooted. exact (complete_rooted _ _ _ Hs Hc).
  - repeat match goal with
           | |- (if ?b then _ else _) = Some _ -> _ => destruct b
           end;
      try discriminate; intros [= <-]; apply rooted_stack_rooted; exact Hs.
  - destruct (hex_value c); [| discriminate].
    destruct digits as [| d1 [| d2 [| d3 [| d4 ds]]]]; intros [= <-];
      apply rooted_stack_rooted; exact Hs.
  - destruct (num_step st c);
      [intros [= <-]; apply rooted_stack_rooted; exact Hs |].
    destruct (num_final st); [| discriminate].
    destruct (complete (VNumber (rev acc_rev)) stack) as [[m' stack'] |] eqn:Hc;
      [| discriminate].
    apply step_after_rooted, rooted_stack_rooted.
    exact (complete_rooted _ _ _ Hs Hc).
  - destruct rest as [| r rest]; [discriminate |].
    destruct (c =? r); [| discriminate].
    destruct rest.
    + intros Hc. destruct ps' as [m' stack'].
      apply rooted_stack_rooted. exact (complete_rooted _ _ _ Hs Hc).
    + intros [= <-]. apply rooted_stack_rooted; exact Hs.
Qed.

Lemma run_rooted (s : text) :
  forall ps ps', rooted_in_object ps = true -> run ps s = Some ps' ->
                 rooted_in_object ps' = true.
Proof.
  induction s as [| c s IH]; intros ps ps' Hps; cbn [run].
  - intros [= <-]. exact Hps.
  - destruct (step ps c) as [ps1 |] eqn:Hstep; [| discriminate].
    apply IH. exact (step_rooted _ _ _ Hps Hstep).
Qed.

(** A text that begins with an opening brace parses to an object, if at
    all. *)
Lemma parse_brace_object (s : text) (v : value) :
  parse (lbrace :: s) = Some v -> is_object v = true.
Proof.
  unfold parse. cbn [run]. change (step (MValue false, []) lbrace)
    with (Some (MKey true, [FObject [] None])).
  destruct (run (MKey true, [FObject [] None]) s) as [[m stack] |] eqn:Hrun;
    [| discriminate].
  apply run_rooted in Hrun; [| reflexivity].
  unfold finish. unfold rooted_in_object in Hrun. cbn [fst snd] in Hrun.
  destruct m; try discriminate.
  - destruct stack; [| discriminate]. intros [= <-]. exact Hrun.
  - destruct stack; [| discriminate]. discriminate.
Qed.

(** *** What the Reconciler can return *)

Lemma match_braces_head (s m : text) :
  match_braces s = Some m -> exists r, m = lbrace :: r.
Proof.
  unfold match_braces. destruct (from_first_open s); [| discriminate].
  destruct (upto_last_close _); [| discriminate]. intros [= <-]. eauto.
Qed.

Lemma reconciled_fallback_object (content : text) :
  parse (trim (strip_fences content)) = None ->
  is_object (reconciled content) = true.
Proof.
  intros Hnone. unfold reconciled. cbv zeta. rewrite Hnone.
  destruct (match_braces _) as [m |] eqn:Hm; [| reflexivity].
  destruct (match_braces_head _ _ Hm) as [r ->].
  destruct (parse (lbrace :: r)) as [v |] eqn:Hv; [| reflexivity].
  exact (parse_brace_object _ _ Hv).
Qed.

Lemma reconciled_defined (content : text) : is_defined (reconciled content) = true.
Proof.
  destruct (parse (trim (strip_fences content))) as [v |] eqn:Hv.
  - unfold reconciled. cbv zeta. rewrite Hv. exact (parse_defined _ _ Hv).
  - pose proof (reconciled_fallback_object content Hv).
    destruct (reconciled content); auto.
Qed.

Lemma reviews_of_reconciled_throw (content : text) (e : JSError) :
  reviews_of (reconciled content) = Throw e ->
  parse (trim (strip_fences content)) = Some VNull /\
  e = TypeError "null (reading 'reviews')".
Proof.
  intros He.
  destruct (parse (trim (strip_fences content))) as [v |] eqn:Hv.
  - unfold reconciled in He. cbv zeta in He. rewrite Hv in He.
    destruct v; try discriminate.
    + apply parse_defined in Hv. discriminate.
    + injection He as <-. auto.
  - pose proof (reconciled_fallback_object content Hv).
    destruct (reconciled content); discriminate.
Qed.

(** X7. What lines 104-125 can return.  The value is never [undefined].
    When the strict parse of the cleaned reply fails, the value is an
    object: either the parsed brace match, which begins with a brace, or
    [{ reviews: [] }].  So reading [reviews] off the value throws only when
    the cleaned reply itself is the JSON text [null], and then with a
    [TypeError]. *)
Theorem reconciled_shape (content : text) :
  let cleanedContent := trim (strip_fences content) in
  is_defined (reconciled content) = true /\
  (parse cleanedContent = None -> is_object (reconciled content) = true) /\
  (forall e, reviews_of (reconciled content) = Throw e ->
     parse cleanedContent = Some VNull /\
     e = TypeError "null (reading 'reviews')").
Proof.
  cbv zeta. split; [apply reconciled_defined |].
  split; [apply reconciled_fallback_object |].
  intros e. apply reviews_of_reconciled_throw.
Qed.

Lemma reconciled_shape_witness :
  parse (trim (strip_fences (js " null "))) = Some VNull.
Proof.
  exact (proj1 (proj2 (proj2 (reconciled_shape (js " null ")))
                  (TypeError "null (reading 'reviews')") eq_refl)).
Defined.

(** X8. When a run returns a result that carries [errorDetails] (lines
    193-204), in any world, the error is the [TypeError] of reading
    [reviews] off [null], the result has no reviews, and the provider had
    answered a reply whose cleaned text is the JSON text [null].  No other
    failure, of the provider or of parsing, ever shows in [errorDetails]. *)
Theorem errorDetails_only_for_null_reply
  (w : World) (url : string) (s : State) (r : Result) (e : JSError) :
  fst (extractReviews w url s) = Return r ->
  errorDetails r = Some e ->
  e = TypeError "null (reading 'reviews')" /\
  reviews r = [] /\
  exists imgs content rest,
    completion w (image_urls imgs) = Some content :: rest /\
    parse (trim (strip_fences content)) = Some VNull.
Proof.
  intros Hret He.
  destruct (extractReviews_shape w url s)
    as [(e0 & k & _ & Hthrow & _)
       | [(e0 & k & _ & Hthrow & _)
         | [(e0 & fsevs & bufs & k & _ & _ & _ & _ & Hthrow & _)
           | (fsevs & bufs & _ & _ & _ & H)]]];
    try (rewrite Hthrow in Hret; discriminate).
  cbv zeta in H. destruct H as (_ & _ & Hfst & _).
  rewrite Hfst in Hret. destruct (fault w _ browser_close); [discriminate |].
  rewrite analyse_run in Hret. cbv zeta in Hret. cbn [dir log] in Hret.
  destruct (reviews_of _) as [found | e0] eqn:Hread; cbn [fst] in Hret.
  { injection Hret as <-. discriminate. }
  injection Hret as <-. cbn [errorDetails reviews] in *. injection He as <-.
  unfold analysed in Hread.
  destruct (fault w _ (provider_call _)); [discriminate |].
  destruct (completion w _) as [| [content |] rest] eqn:Hreply; try discriminate.
  destruct (reviews_of_reconciled_throw _ _ Hread) as [Hparse ->].
  split; [reflexivity |]. split; [reflexivity |].
  eexists _, content, rest. split; [exact Hreply | exact Hparse].
Qed.

Lemma errorDetails_only_for_null_reply_witness :
  exists imgs content rest,
    completion (replying 1800 (js "null")) (image_urls imgs) = Some content :: rest /\
    parse (trim (strip_fences content)) = Some VNull.
Proof.
  exact (proj2 (proj2
    (errorDetails_only_for_null_reply (replying 1800 (js "null")) shop fresh_start
       {| reviews := []; errorDetails := Some (TypeError "null (reading 'reviews')") |}
       (TypeError "null (reading 'reviews')")
       ltac:(vm_compute; reflexivity) eq_refl))).
Defined.

(** *** From the reply to the response *)

Lemma leftover_error_file (w : World) (bufs : list Buffer) (d : gmap string FileData) :
  frames_files 0 bufs (undeletable w d) !! error_file =
  match unlink_fault w error_file with
  | Some _ => d !! error_file
  | None => None
  end.
Proof.
  rewrite frames_files_other.
  - rewrite undeletable_lookup. unfold deletable.
    destruct (unlink_fault w error_file); reflexivity.
  - intros j _ Heq. exact (error_file_not_frame _ (eq_sym Heq)).
Qed.

(** With nothing rejecting and the reply [content], the run returns what
    reading [reviews] off the reconciled reply gives, and writes the error
    file only when that read throws. *)
Lemma run_with_reply (w : World) (url : string) (s : State) (content : text) :
  calm w ->
  (forall imgs, exists rest, completion w imgs = Some content :: rest) ->
  fst (extractReviews w url s) =
    Return (match reviews_of (reconciled content) with
            | Return found => {| reviews := concat [] found; errorDetails := None |}
            | Throw e => {| reviews := []; errorDetails := Some e |}
            end) /\
  (forall found, reviews_of (reconciled content) = Return found ->
     (dir (snd (extractReviews w url s)) ≫= fun d => d !! error_file) =
     match unlink_fault w error_file with
     | Some _ => default ∅ (dir s) !! error_file
     | None => None
     end).
Proof.
  intros Hcalm Hreply.
  destruct (extractReviews_browser_ok w url s (calm_browser_ok w Hcalm))
    as (fsevs & bufs & H).
  cbv zeta in H. destruct H as (_ & _ & _ & ->).
  rewrite analyse_run. cbv zeta. unfold analysed. rewrite Hcalm.
  destruct (Hreply (image_urls (map toString_base64 bufs))) as [rest ->].
  cbn [dir log].
  destruct (reviews_of (reconciled content)) as [found | e]; cbn [fst snd dir].
  - split; [reflexivity |]. intros _ _. cbn [mbind option_bind].
    apply leftover_error_file.
  - split; [reflexivity |]. intros found [=].
Qed.

(** X9. The reviews come back verbatim (lines 194-195, 204 and 228-232).
    When nothing rejects and the cleaned reply parses to an object whose
    [reviews] is an array, the response is a 200 whose [reviews] is that
    array, element for element and in order, whose [reviews_count] is its
    length and whose [errorDetails] is [null]; no error file is written:
    the directory holds none afterwards, unless it held one before that
    could not be unlinked, which is then still there. *)
Theorem reviews_returned_verbatim
  (w : World) (url : string) (s : State) (content : text)
  (ms : list (text * value)) (l : list value) :
  url <> "" ->
  calm w ->
  (forall imgs, exists rest, completion w imgs = Some content :: rest) ->
  parse (trim (strip_fences content)) = Some (VObject ms) ->
  last_member (js "reviews") ms = Some (VArray l) ->
  fst (api_reviews w (Some url) s) =
    Return {| status := 200; json := ReviewsBody (length l) l None |} /\
  (dir (snd (api_reviews w (Some url) s)) ≫= fun d => d !! error_file) =
    match unlink_fault w error_file with
    | Some _ => default ∅ (dir s) !! error_file
    | None => None
    end.
Proof.
  intros Hurl Hcalm Hreply Hparse Hreviews.
  assert (Hrec : reviews_of (reconciled content) = Return (VArray l)).
  { unfold reconciled. cbv zeta. rewrite Hparse. cbn [reviews_of].
    rewrite Hreviews. reflexivity. }
  destruct (run_with_reply w url s content Hcalm Hreply) as [Hfst Hfile].
  rewrite Hrec in Hfst. specialize (Hfile _ Hrec).
  rewrite api_reviews_run by exact Hurl.
  destruct (extractReviews w url s) as [[result | e] s']; cbn [fst snd] in *;
    [| discriminate].
  injection Hfst as ->. split; [reflexivity | exact Hfile].
Qed.

Lemma reviews_returned_verbatim_witness :
  fst (api_reviews (replying 2500 great_review) (Some shop) fresh_start) =
    Return {| status := 200;
              json := ReviewsBody 1
                [VObject [(js "title", VString (js "Great"));
                          (js "body", VString (js "Works well"));
                          (js "rating", VNumber (js "5"));
                          (js "reviewer", VString (js "A"))]] None |}.
Proof.
  set (review := VObject [(js "title", VString (js "Great"));
                          (js "body", VString (js "Works well"));
                          (js "rating", VNumber (js "5"));
                          (js "reviewer", VString (js "A"))]).
  refine (proj1 (reviews_returned_verbatim (replying 2500 great_review) shop
                   fresh_start great_review
                   [(js "reviews", VArray [review])] [review] _ _ _ _ _)).
  - discriminate.
  - intros h c. reflexivity.
  - intros imgs. exists []. reflexivity.
  - vm_compute. reflexivity.
  - vm_compute. reflexivity.
Defined.

(** X10. A reply of another shape counts as one review (line 195).  When
    nothing rejects and the cleaned reply parses to a value other than
    [null] whose [reviews] is not an array, [concat] appends whatever the
    read of [reviews] gave as a single element: the response is a 200 with
    [reviews_count] 1 and [errorDetails] [null], and the element is
    [undefined] when the parsed value is not an object. *)
Theorem non_array_reviews_count_as_one
  (w : World) (url : string) (s : State) (content : text) (v : value) :
  url <> "" ->
  calm w ->
  (forall imgs, exists rest, completion w imgs = Some content :: rest) ->
  parse (trim (strip_fences content)) = Some v ->
  v <> VNull ->
  has_reviews_array v = false ->
  exists found,
    reviews_of v = Return found /\
    (is_object v = false -> found = VUndefined) /\
    fst (api_reviews w (Some url) s) =
      Return {| status := 200; json := ReviewsBody 1 [found] None |}.
Proof.
  intros Hurl Hcalm Hreply Hparse Hnull Hshape.
  assert (Hrec : reconciled content = v).
  { unfold reconciled. cbv zeta. rewrite Hparse. reflexivity. }
  assert (Hread : exists found,
            reviews_of v = Return found /\
            (is_object v = false -> found = VUndefined) /\
            concat [] found = [found]).
  { pose proof (parse_defined _ _ Hparse) as Hdef.
    destruct v; try discriminate; try congruence;
      try (exists VUndefined; repeat split; reflexivity).
    cbn [reviews_of has_reviews_array] in *.
    destruct (last_member (js "reviews") members) as [[] |];
      try discriminate; eexists; (split; [reflexivity |]);
      (split; [discriminate | reflexivity]). }
  destruct Hread as (found & Hfound & Hundef & Hconcat).
  exists found. split; [exact Hfound |]. split; [exact Hundef |].
  destruct (run_with_reply w url s content Hcalm Hreply) as [Hfst _].
  rewrite Hrec, Hfound, Hconcat in Hfst.
  rewrite api_reviews_run by exact Hurl.
  destruct (extractReviews w url s) as [[result | e] s']; cbn [fst] in *;
    [| discriminate].
  injection Hfst as ->. reflexivity.
Qed.

(** The reply [5]. *)
Lemma non_array_reviews_count_as_one_witness :
  fst (api_reviews (replying 1800 (js "5")) (Some shop) fresh_start) =
    Return {| status := 200; json := ReviewsBody 1 [VUndefined] None |}.
Proof.
  destruct (non_array_reviews_count_as_one (replying 1800 (js "5")) shop fresh_start
              (js "5") (VNumber (js "5")))
    as (found & Hfound & _ & Hresponse).
  - discriminate.
  - intros h c. reflexivity.
  - intros imgs. exists []. reflexivity.
  - vm_compute. reflexivity.
  - discriminate.
  - reflexivity.
  - injection Hfound as <-. exact Hresponse.
Defined.

(** X11. A response of the provider without a usable content (lines 100-104
    and 126-129).  When the provider answers with no choice or with a [null]
    content, reading the content throws a [TypeError]; when the browser does
    not reject, that error, like a rejection of the provider, is caught
    inside [analyzeScreenshots]: the run returns no review and no error
    detail, and writes no error file, so that the directory holds none
    afterwards unless it held one before that could not be unlinked. *)
Theorem reply_without_content_is_empty (w : World) (url : string) (s : State) :
  browser_ok w ->
  (forall imgs, completion w imgs = [] \/ exists rest, completion w imgs = None :: rest) ->
  (forall imgs t, exists e,
     first_content (completion w imgs) t = (Throw e, t) /\ name e = "TypeError") /\
  fst (extractReviews w url s) = Return {| reviews := []; errorDetails := None |} /\
  (dir (snd (extractReviews w url s)) ≫= fun d => d !! error_file) =
    match unlink_fault w error_file with
    | Some _ => default ∅ (dir s) !! error_file
    | None => None
    end.
Proof.
  intros Hok Hreply.
  split.
  { intros imgs t. destruct (Hreply imgs) as [-> | [rest ->]]; cbn; eauto. }
  destruct (extractReviews_browser_ok w url s Hok) as (fsevs & bufs & H).
  cbv zeta in H. destruct H as (_ & _ & _ & ->).
  rewrite analyse_run. cbv zeta. cbn [dir log].
  assert (Hempty : forall h, analysed w h (map toString_base64 bufs) = empty_reviews).
  { intros h. unfold analysed. destruct (fault w h _); [reflexivity |].
    destruct (Hreply (image_urls (map toString_base64 bufs))) as [-> | [rest ->]];
      reflexivity. }
  rewrite Hempty. cbn [reviews_of empty_reviews fst snd dir].
  split; [reflexivity |]. cbn [mbind option_bind].
  apply leftover_error_file.
Qed.

(** The provider resolves, with one choice whose content is [null]. *)
Lemma reply_without_content_is_empty_witness :
  fault (null_content 1800) (chromium_launch :: browser_newPage :: render_calls shop)
        (provider_call []) = None /\
  first_content (completion (null_content 1800) []) fresh_start
    = (Throw (TypeError "null (reading 'replace')"), fresh_start) /\
  fst (extractReviews (null_content 1800) shop fresh_start)
    = Return {| reviews := []; errorDetails := None |} /\
  (dir (snd (extractReviews (null_content 1800) shop fresh_start))
     ≫= fun d => d !! error_file) = None.
Proof.
  destruct (reply_without_content_is_empty (null_content 1800) shop fresh_start)
    as (_ & Hrun & Hfile).
  - intros h c _. reflexivity.
  - intros imgs. right. exists []. reflexivity.
  - split; [reflexivity |]. split; [reflexivity |].
    split; [exact Hrun | exact Hfile].
Defined.

(** *** The brace match *)

Lemma upto_last_close_none_iff (s : text) :
  upto_last_close s = None <-> forallb not_rbrace s = true.
Proof.
  induction s as [| c s IH]; [split; reflexivity |].
  cbn [upto_last_close forallb]. unfold not_rbrace at 1.
  destruct (upto_last_close s) as [r |].
  - split; [discriminate |]. intros H. apply andb_prop in H as [_ H].
    apply IH in H. discriminate.
  - destruct (c =? rbrace); cbn; [split; discriminate |].
    split; [intros _; apply IH; reflexivity | reflexivity].
Qed.

Lemma upto_last_close_spec (s r : text) :
  upto_last_close s = Some r <->
  exists mid b, s = mid ++ rbrace :: b /\ r = mid ++ [rbrace] /\
                forallb not_rbrace b = true.
Proof.
  split.
  - revert r. induction s as [| c s IH]; intros r; [discriminate |].
    cbn [upto_last_close].
    destruct (upto_last_close s) as [r' |] eqn:Hs.
    + intros [= <-]. destruct (IH r' eq_refl) as (mid & b & -> & -> & Hb).
      exists (c :: mid), b. auto.
    + destruct (N.eqb_spec c rbrace) as [-> |]; [| discriminate].
      intros [= <-]. exists [], s. split; [reflexivity |].
      split; [reflexivity |]. apply upto_last_close_none_iff, Hs.
  - intros (mid & b & -> & -> & Hb).
    apply upto_last_close_none_iff in Hb.
    induction mid as [| x mid IH]; cbn [app upto_last_close].
    + rewrite Hb. reflexivity.
    + rewrite IH. reflexivity.
Qed.

Lemma from_first_open_spec (s r : text) :
  from_first_open s = Some r <->
  exists a, s = a ++ lbrace :: r /\ forallb not_lbrace a = true.
Proof.
  split.
  - induction s as [| c s IH]; [discriminate |].
    cbn [from_first_open].
    destruct (N.eqb_spec c lbrace) as [-> | Hne].
    + intros [= <-]. exists []. auto.
    + intros H. destruct (IH H) as (a & -> & Ha).
      exists (c :: a). split; [reflexivity |].
      cbn. rewrite Ha. unfold not_lbrace.
      destruct (N.eqb_spec c lbrace); [contradiction | reflexivity].
  - intros (a & -> & Ha).
    induction a as [| x a IH]; [reflexivity |].
    cbn in Ha. apply andb_prop in Ha as [Hx Ha].
    cbn [app from_first_open]. unfold not_lbrace in Hx.
    apply negb_true_iff in Hx. rewrite Hx. apply IH, Ha.
Qed.

(** X12. The fallback pattern of line 114 matches from the first opening
    brace of the text to the last closing brace after it, and nothing else:
    the match is [m] exactly when the text is some [a] without an opening
    brace, then [m], then some [b] without a closing brace, with [m]
    beginning with an opening and ending with a closing brace.  There is no
    match exactly when no closing brace follows the first opening one. *)
Theorem match_braces_spec (s : text) :
  (forall m,
     match_braces s = Some m <->
     exists a mid b,
       s = a ++ lbrace :: mid ++ rbrace :: b /\
       m = lbrace :: mid ++ [rbrace] /\
       forallb not_lbrace a = true /\ forallb not_rbrace b = true) /\
  (match_braces s = None <->
   forallb not_lbrace s = true \/
   exists a r, s = a ++ lbrace :: r /\ forallb not_lbrace a = true /\
               forallb not_rbrace r = true).
Proof.
  split.
  - intros m. unfold match_braces. split.
    + destruct (from_first_open s) as [rest |] eqn:Hopen; [| discriminate].
      destruct (upto_last_close rest) as [r |] eqn:Hclose; [| discriminate].
      intros [= <-].
      apply from_first_open_spec in Hopen as (a & -> & Ha).
      apply upto_last_close_spec in Hclose as (mid & b & -> & -> & Hb).
      exists a, mid, b. auto.
    + intros (a & mid & b & -> & -> & Ha & Hb).
      rewrite (proj2 (from_first_open_spec _ (mid ++ rbrace :: b)))
        by (exists a; auto).
      rewrite (proj2 (upto_last_close_spec _ (mid ++ [rbrace])))
        by (exists mid, b; auto).
      reflexivity.
  - unfold match_braces. split.
    + destruct (from_first_open s) as [rest |] eqn:Hopen.
      * destruct (upto_last_close rest) as [r |] eqn:Hclose; [discriminate |].
        intros _. right.
        apply from_first_open_spec in Hopen as (a & -> & Ha).
        exists a, rest. split; [reflexivity |]. split; [exact Ha |].
        apply upto_last_close_none_iff, Hclose.
      * intros _. left. clear -Hopen.
        induction s as [| c s IH]; [reflexivity |].
        cbn [from_first_open] in Hopen. cbn. unfold not_lbrace at 1.
        destruct (c =? lbrace); [discriminate |]. cbn. apply IH, Hopen.
    + intros [Hnone | (a & r & -> & Ha & Hr)].
      * destruct (from_first_open s) as [rest |] eqn:Hopen; [| reflexivity].
        apply from_first_open_spec in Hopen as (a & -> & _).
        rewrite forallb_app in Hnone. apply andb_prop in Hnone as [_ Hnone].
        cbn in Hnone. discriminate.
      * rewrite (proj2 (from_first_open_spec _ r)) by (exists a; auto).
        rewrite (proj2 (upto_last_close_none_iff r)) by exact Hr. reflexivity.
Qed.

Lemma match_braces_spec_witness :
  match_braces (js "so {a} and {b} it is") = Some (js "{a} and {b}").
Proof.
  apply (proj1 (match_braces_spec (js "so {a} and {b} it is"))).
  exists (js "so "), (js "a} and {b"), (js " it is").
  repeat split; vm_compute; reflexivity.
Defined.

(** *** Replies without fences *)

Lemma fence_match_no_backtick (s : text) :
  forallb not_backtick s = true -> fence_match s = None.
Proof.
  intros H. unfold fence_match.
  destruct s as [| c s]; [reflexivity |].
  cbn [forallb] in H. apply andb_prop in H as [Hc Hs].
  unfold not_backtick in Hc. apply negb_true_iff in Hc.
  rewrite N.eqb_sym in Hc.
  assert (H1 : starts_with fence_json (c :: s) = false).
  { unfold fence_json, fence. cbn [app starts_with]. rewrite Hc. reflexivity. }
  assert (H3 : starts_with fence (c :: s) = false).
  { unfold fence. cbn [starts_with]. rewrite Hc. reflexivity. }
  assert (H2 : starts_with (newline :: fence) (c :: s) = false).
  { unfold fence. cbn [starts_with]. destruct s as [| c' s]; [apply andb_false_r |].
    cbn [forallb] in Hs. apply andb_prop in Hs as [Hc' _].
    unfold not_backtick in Hc'. apply negb_true_iff in Hc'.
    rewrite N.eqb_sym in Hc'. rewrite Hc'. apply andb_false_r. }
  rewrite H1, H2, H3. reflexivity.
Qed.

Lemma strip_fences_no_backtick (s : text) :
  forallb not_backtick s = true -> strip_fences s = s.
Proof.
  unfold strip_fences. induction s as [| c s IH]; intros H; [reflexivity |].
  cbn [strip_from]. rewrite (fence_match_no_backtick _ H).
  cbn in H. apply andb_prop in H as [_ H]. rewrite (IH H). reflexivity.
Qed.

Lemma trimStart_spaces (ws x : text) :
  forallb is_js_space ws = true -> trimStart (ws ++ x) = trimStart x.
Proof.
  induction ws as [| c ws IH]; intros H; [reflexivity |].
  cbn in H. apply andb_prop in H as [Hc Hws].
  cbn [app trimStart]. rewrite Hc. apply IH, Hws.
Qed.

Lemma trimEnd_spaces (x ws : text) :
  forallb is_js_space ws = true -> trimEnd (x ++ ws) = trimEnd x.
Proof.
  intros H. unfold trimEnd. rewrite rev_app_distr.
  rewrite trimStart_spaces by (apply forallb_rev, H). reflexivity.
Qed.

Lemma trim_spaces (ws1 x ws2 : text) :
  forallb is_js_space ws1 = true -> forallb is_js_space ws2 = true ->
  trim (ws1 ++ x ++ ws2) = trim x.
Proof.
  intros H1 H2. unfold trim. rewrite trimStart_spaces by exact H1.
  induction x as [| c x IH].
  - cbn [app]. replace (trimStart ws2) with (@nil N); [reflexivity |].
    pose proof (trimStart_spaces ws2 [] H2) as H. rewrite app_nil_r in H.
    rewrite H. reflexivity.
  - cbn [app trimStart]. destruct (is_js_space c); [exact IH |].
    rewrite app_comm_cons. apply trimEnd_spaces, H2.
Qed.

Lemma spaces_no_backtick (ws : text) :
  forallb is_js_space ws = true -> forallb not_backtick ws = true.
Proof.
  induction ws as [| c ws IH]; [reflexivity |].
  cbn. intros H. apply andb_prop in H as [Hc Hws]. rewrite (IH Hws), andb_true_r.
  unfold not_backtick, backtick.
  destruct (N.eqb_spec c 96) as [-> |]; [discriminate | reflexivity].
Qed.

(** X13. A reply without a backtick passes line 104 unchanged but for the
    trimming: the fence pattern removes nothing, and white space before and
    after the reply, of whatever kind [trim] knows, does not change what
    the Reconciler returns. *)
Theorem plain_reply_only_trimmed (content ws1 ws2 : text) :
  forallb not_backtick content = true ->
  forallb is_js_space ws1 = true ->
  forallb is_js_space ws2 = true ->
  strip_fences content = content /\
  trim (strip_fences (ws1 ++ content ++ ws2)) = trim content /\
  reconciled (ws1 ++ content ++ ws2) = reconciled content.
Proof.
  intros Hc H1 H2.
  assert (Hclean : trim (strip_fences (ws1 ++ content ++ ws2)) = trim content).
  { rewrite strip_fences_no_backtick; [apply trim_spaces; assumption |].
    rewrite !forallb_app, Hc, !spaces_no_backtick by assumption. reflexivity. }
  split; [apply strip_fences_no_backtick, Hc |]. split; [exact Hclean |].
  unfold reconciled. cbv zeta.
  rewrite Hclean, (strip_fences_no_backtick content Hc). reflexivity.
Qed.

Lemma plain_reply_only_trimmed_witness :
  reconciled ([newline; 32] ++ great_review ++ [32; newline; 160])
  = reconciled great_review.
Proof.
  refine (proj2 (proj2 (plain_reply_only_trimmed great_review [newline; 32]
                          [32; newline; 160] _ _ _)));
    vm_compute; reflexivity.
Defined.

(** *** What the provider receives *)

Lemma provider_call_found (evs : list Event) (c : Call) (m : string) (imgs : list string) :
  List.filter is_provider_call evs = [Ext c] ->
  In (Ext (openai_create m imgs)) evs ->
  c = openai_create m imgs.
Proof.
  intros Hfilter Hin.
  assert (H : In (Ext (openai_create m imgs)) (List.filter is_provider_call evs)).
  { apply List.filter_In. split; [exact Hin | reflexivity]. }
  rewrite Hfilter in H. destruct H as [H | []]. congruence.
Qed.

Lemma provider_call_absent (evs : list Event) (m : string) (imgs : list string) :
  List.filter is_provider_call evs = [] ->
  ~ In (Ext (openai_create m imgs)) evs.
Proof.
  intros Hfilter Hin.
  assert (H : In (Ext (openai_create m imgs)) (List.filter is_provider_call evs)).
  { apply List.filter_In. split; [exact Hin | reflexivity]. }
  rewrite Hfilter in H. exact H.
Qed.

(** X14. What the provider is sent is what is on disk (lines 78-83 and
    184-189), in any world.  Whenever a run calls the provider, the model
    named is [gpt-4-vision-preview] and the images are, in the order of the
    frames, the data URLs [data:image/png;base64,...] of the very bytes that
    the files [screenshot_0.png], [screenshot_1.png], ... hold when the run
    ends, one image for each of the [numScreenshots] frames. *)
Theorem provider_receives_the_frames_on_disk
  (w : World) (url : string) (s : State) (evs : list Event)
  (model : string) (images : list string) :
  log (snd (extractReviews w url s)) = log s ++ evs ->
  In (Ext (openai_create model images)) evs ->
  model = "gpt-4-vision-preview" /\
  exists (bufs : list Buffer) (d : gmap string FileData),
    length bufs = N.to_nat (numScreenshots w) /\
    images = map (fun b => "data:image/png;base64," +:+ toString_base64 b) bufs /\
    dir (snd (extractReviews w url s)) = Some d /\
    forall k b, bufs !! k = Some b ->
      d !! screenshot_file (N.of_nat k) = Some (Binary b).
Proof.
  intros Hevs Hin.
  destruct (extractReviews_shape w url s)
    as [(e & k & _ & _ & _ & Hlog & _)
       | [(e & k & _ & _ & _ & Hlog & _)
         | [(e & fsevs & bufs & k & _ & _ & Hclearing & _ & _ & _ & Hlog & _)
           | (fsevs & bufs & Hlen & Hclearing & _ & H)]]].
  - rewrite Hlog in Hevs. apply app_inv_head in Hevs. subst evs. exfalso.
    revert Hin. apply provider_call_absent.
    apply no_provider_call_in_browser_calls, forallb_firstn. reflexivity.
  - rewrite Hlog in Hevs. apply app_inv_head in Hevs. subst evs. exfalso.
    revert Hin. apply provider_call_absent.
    apply no_provider_call_in_browser_calls.
    rewrite !forallb_app, (forallb_firstn on_browser (S k) (render_calls url) eq_refl).
    reflexivity.
  - rewrite Hlog in Hevs. apply app_inv_head in Hevs. subst evs. exfalso.
    revert Hin. apply provider_call_absent.
    rewrite !List.filter_app.
    rewrite no_provider_call_in_browser_calls by reflexivity.
    rewrite (no_provider_call_without_calls fsevs) by (apply is_clearing_calls, Hclearing).
    rewrite no_provider_call_in_frames, no_provider_call_in_frame_calls.
    reflexivity.
  - cbv zeta in H. destruct H as (Hdir & Hlog & _).
    match type of Hlog with
    | context [analyse w ?imgs ?s1] =>
        destruct (analyse_log w imgs s1) as (tail & Htail & Hcalls)
    end.
    rewrite Hlog, Htail in Hevs. cbn [log] in Hevs.
    rewrite <- !app_assoc in Hevs. apply app_inv_head in Hevs. subst evs.
    assert (Hfilter :
      List.filter is_provider_call
        (map Ext (opening_calls ++ render_calls url) ++ fsevs ++ frames_log 0 bufs
         ++ (Ext (provider_call (map toString_base64 bufs)) :: tail)
         ++ [Ext browser_close])
      = [Ext (provider_call (map toString_base64 bufs))]).
    { rewrite !List.filter_app.
      rewrite no_provider_call_in_browser_calls by reflexivity.
      rewrite (no_provider_call_without_calls fsevs)
        by (apply is_clearing_calls, Hclearing).
      rewrite no_provider_call_in_frames.
      cbn [app List.filter is_provider_call provider_call].
      rewrite (no_provider_call_without_calls tail Hcalls). reflexivity. }
    pose proof (provider_call_found _ _ _ _ Hfilter Hin) as Hcall.
    unfold provider_call, image_urls in Hcall. injection Hcall as <- <-.
    split; [reflexivity |].
    rewrite analyse_run in Hdir. cbv zeta in Hdir. cbn [dir log] in Hdir.
    assert (Hin_dir : forall d0 k b, bufs !! k = Some b ->
              frames_files 0 bufs d0 !! screenshot_file (N.of_nat k) = Some (Binary b)).
    { intros d0 k b Hk. pose proof (frames_files_lookup bufs 0 d0 k b Hk) as Hf.
      rewrite N.add_0_l in Hf. exact Hf. }
    destruct (reviews_of _) as [found | e]; cbn [snd dir] in Hdir.
    + eexists bufs, _.
      split; [exact Hlen |]. split; [apply map_map |].
      split; [exact Hdir | apply Hin_dir].
    + eexists bufs, _.
      split; [exact Hlen |]. split; [apply map_map |].
      split; [exact Hdir |].
      intros k b Hk. rewrite lookup_insert_ne
        by (intros Heq; exact (error_file_not_frame _ (eq_sym Heq))).
      apply Hin_dir, Hk.
Qed.

Lemma provider_receives_the_frames_on_disk_witness :
  exists (bufs : list Buffer) (d : gmap string FileData),
    length bufs = N.to_nat (numScreenshots (replying 1800 great_review)) /\
    ["data:image/png;base64,iVBORw=="; "data:image/png;base64,iVBORw=="]
      = map (fun b => "data:image/png;base64," +:+ toString_base64 b) bufs /\
    dir (snd (extractReviews (replying 1800 great_review) shop fresh_start)) = Some d /\
    forall k b, bufs !! k = Some b ->
      d !! screenshot_file (N.of_nat k) = Some (Binary b).
Proof.
  set (w := replying 1800 great_review).
  refine (proj2 (provider_receives_the_frames_on_disk w shop fresh_start
                   (log (snd (extractReviews w shop fresh_start)))
                   "gpt-4-vision-preview"
                   ["data:image/png;base64,iVBORw=="; "data:image/png;base64,iVBORw=="]
                   eq_refl _)).
  vm_compute. do 19 right. left. reflexivity.
Defined.
